(** * StudyBuddy: a shallow embedding of the chat client

    The development follows the three source files of the application:
    the type declarations and the Gemini service wrapper
    ([fileToGenerativePart], [solveHomework]), the markdown-subset
    renderer ([formatBold]) and the [App] component with its crop flow
    ([getCroppedImg], [processFinalImage]) and its chat logic
    ([handleSendMessage], the Clear Chat button).

    JavaScript strings are sequences of UTF-16 code units; numbers that
    carry pixel geometry are IEEE 754 doubles; what the browser supplies
    (file reading, canvas, fetch, random ids, the clock, the AI service)
    enters the handlers as explicit arguments. *)

From Stdlib Require Import List NArith ZArith QArith Bool Ascii String Lia.
From Stdlib Require Init.Byte.
From Stdlib Require Import PrimFloat.
From Stdlib Require FloatOps SpecFloat.
Import ListNotations.

Local Open Scope N_scope.

(** ** JavaScript strings *)

Module Js.

(** A UTF-16 code unit. *)
Definition char16 := N.

Definition jsstring := list char16.

(** An ASCII literal as a JavaScript string. *)
Definition lit (s : string) : jsstring :=
  List.map N_of_ascii (list_ascii_of_string s).

Definition char_eqb (a b : char16) : bool := N.eqb a b.

Fixpoint eqb (s t : jsstring) : bool :=
  match s, t with
  | [], [] => true
  | a :: s', b :: t' => char_eqb a b && eqb s' t'
  | _, _ => false
  end.

(** Truthiness of a string value: the empty string is falsy. *)
Definition truthy (s : jsstring) : bool :=
  match s with
  | [] => false
  | _ :: _ => true
  end.

(** Truthiness of [string | undefined] and [string | null]. *)
Definition truthy_opt (o : option jsstring) : bool :=
  match o with
  | Some s => truthy s
  | None => false
  end.

(** [s.startsWith(p)], returning what follows the prefix. *)
Fixpoint stripPrefix (p s : jsstring) : option jsstring :=
  match p with
  | [] => Some s
  | a :: p' =>
      match s with
      | [] => None
      | b :: s' => if char_eqb a b then stripPrefix p' s' else None
      end
  end.

(** [s.split(sep)] for a one-character separator: every occurrence
    cuts, so the result always has at least one segment. *)
Fixpoint split (sep : char16) (s : jsstring) : list jsstring :=
  match s with
  | [] => [[]]
  | c :: s' =>
      if char_eqb c sep then [] :: split sep s'
      else match split sep s' with
           | seg :: segs => (c :: seg) :: segs
           | [] => [[c]]
           end
  end.

(** [s.replace(/c/g, r)] for a one-character pattern [c] and a
    replacement [r] without dollar patterns. *)
Fixpoint replaceChar (c : char16) (r : jsstring) (s : jsstring) : jsstring :=
  match s with
  | [] => []
  | a :: s' => (if char_eqb a c then r else [a]) ++ replaceChar c r s'
  end.

(** Whitespace and line terminators removed by [String.prototype.trim]. *)
Definition isWhiteSpace (c : char16) : bool :=
  (c =? 9) || (c =? 10) || (c =? 11) || (c =? 12) || (c =? 13) || (c =? 32)
  || (c =? 160) || (c =? 5760) || ((8192 <=? c) && (c <=? 8202))
  || (c =? 8232) || (c =? 8233) || (c =? 8239) || (c =? 8287)
  || (c =? 12288) || (c =? 65279).

(** [s.trim()]. *)
Fixpoint trimStart (s : jsstring) : jsstring :=
  match s with
  | [] => []
  | c :: s' => if isWhiteSpace c then trimStart s' else s
  end.

Definition trim (s : jsstring) : jsstring :=
  rev (trimStart (rev (trimStart s))).

Definition comma : char16 := 44.
Definition dquote : char16 := 34.

End Js.

Import Js.

(** ** Base64 (RFC 4648), as used by data URLs *)

Module Base64.

Definition pad : char16 := 61.

(** The character of a 6-bit value. *)
Definition enc6 (i : N) : char16 :=
  if i <? 26 then 65 + i
  else if i <? 52 then 71 + i
  else if i <? 62 then i - 4
  else if i =? 62 then 43
  else 47.

(** The 6-bit value of a character of the alphabet. *)
Definition dec6 (c : char16) : option N :=
  if (65 <=? c) && (c <=? 90) then Some (c - 65)
  else if (97 <=? c) && (c <=? 122) then Some (c - 71)
  else if (48 <=? c) && (c <=? 57) then Some (c + 4)
  else if c =? 43 then Some 62
  else if c =? 47 then Some 63
  else None.

Fixpoint encode (bs : list Byte.byte) : jsstring :=
  match bs with
  | [] => []
  | [a] =>
      let a := Byte.to_N a in
      [enc6 (a / 4); enc6 ((a mod 4) * 16); pad; pad]
  | [a; b] =>
      let a := Byte.to_N a in
      let b := Byte.to_N b in
      [enc6 (a / 4); enc6 ((a mod 4) * 16 + b / 16); enc6 ((b mod 16) * 4); pad]
  | a :: b :: c :: rest =>
      let a := Byte.to_N a in
      let b := Byte.to_N b in
      let c := Byte.to_N c in
      enc6 (a / 4) :: enc6 ((a mod 4) * 16 + b / 16)
        :: enc6 ((b mod 16) * 4 + c / 64) :: enc6 (c mod 64) :: encode rest
  end.

Definition byte1 (x0 x1 : N) : option Byte.byte :=
  Byte.of_N (x0 * 4 + x1 / 16).
Definition byte2 (x1 x2 : N) : option Byte.byte :=
  Byte.of_N ((x1 mod 16) * 16 + x2 / 4).
Definition byte3 (x2 x3 : N) : option Byte.byte :=
  Byte.of_N ((x2 mod 4) * 64 + x3).

(** Decoding reads groups of four characters; padding is accepted
    only in the last group. *)
Fixpoint decode (s : jsstring) : option (list Byte.byte) :=
  match s with
  | [] => Some []
  | c0 :: c1 :: c2 :: c3 :: rest =>
      match dec6 c0, dec6 c1 with
      | Some x0, Some x1 =>
          if char_eqb c3 pad then
            match rest with
            | [] =>
                if char_eqb c2 pad then
                  match byte1 x0 x1 with
                  | Some a => Some [a]
                  | None => None
                  end
                else
                  match dec6 c2 with
                  | Some x2 =>
                      match byte1 x0 x1, byte2 x1 x2 with
                      | Some a, Some b => Some [a; b]
                      | _, _ => None
                      end
                  | None => None
                  end
            | _ :: _ => None
            end
          else
            match dec6 c2, dec6 c3 with
            | Some x2, Some x3 =>
                match byte1 x0 x1, byte2 x1 x2, byte3 x2 x3, decode rest with
                | Some a, Some b, Some c, Some bs => Some (a :: b :: c :: bs)
                | _, _, _, _ => None
                end
            | _, _ => None
            end
      | _, _ => None
      end
  | _ => None
  end.

End Base64.

(** ** JavaScript numbers *)

Module Num.

(** A number: a binary64 float with the arithmetic of the machine. *)
Definition number := PrimFloat.float.
Bind Scope float_scope with number.

(** The integer part of the magnitude [m * 2^e]. *)
Definition magnitude (m : positive) (e : Z) : Z :=
  (if 0 <=? e then Z.pos m * 2 ^ e else Z.pos m / 2 ^ (- e))%Z.

(** Whether the magnitude [m * 2^e] is a whole number. *)
Definition wholeMagnitude (m : positive) (e : Z) : bool :=
  (if 0 <=? e then true else Z.pos m mod 2 ^ (- e) =? 0)%Z.

(** The integer part of a number, toward zero; none for NaN and the
    infinities. *)
Definition truncate (x : number) : option Z :=
  match FloatOps.Prim2SF x with
  | SpecFloat.S754_zero _ => Some 0%Z
  | SpecFloat.S754_finite s m e =>
      Some (if s then - magnitude m e else magnitude m e)%Z
  | _ => None
  end.

(** [Math.ceil] as an integer; none for NaN and the infinities. *)
Definition ceiling (x : number) : option Z :=
  match FloatOps.Prim2SF x with
  | SpecFloat.S754_zero _ => Some 0%Z
  | SpecFloat.S754_finite s m e =>
      Some (if s then - magnitude m e
            else if wholeMagnitude m e then magnitude m e
                 else magnitude m e + 1)%Z
  | _ => None
  end.

(** Whether a number is a whole number. *)
Definition isWhole (x : number) : bool :=
  match FloatOps.Prim2SF x with
  | SpecFloat.S754_zero _ => true
  | SpecFloat.S754_finite _ m e => wholeMagnitude m e
  | _ => false
  end.

(** The conversion of a number to the IDL type [unsigned long]: NaN
    and the infinities give 0, any other number its integer part
    modulo 2^32. *)
Definition toUnsignedLong (x : number) : Z :=
  match truncate x with
  | Some z => (z mod 2 ^ 32)%Z
  | None => 0%Z
  end.

(** Assigning a number to [canvas.width] or [canvas.height]: the
    attribute takes the converted value, or its default when the value
    is beyond 2147483647. *)
Definition canvasDimension (default : Z) (x : number) : Z :=
  let n := toUnsignedLong x in
  (if n <=? 2147483647 then n else default)%Z.

End Num.

Import Num.

(** ** Types ([types.ts]) *)

Inductive Role := USER | MODEL.

Record Message := mkMessage {
  msg_id : jsstring;
  msg_role : Role;
  msg_text : jsstring;
  msg_image : option jsstring;
  msg_timestamp : Z;
  msg_isError : option bool
}.

Inductive LoadingState := idle | uploading | thinking | streaming.

Definition LoadingState_eqb (a b : LoadingState) : bool :=
  match a, b with
  | idle, idle | uploading, uploading | thinking, thinking
  | streaming, streaming => true
  | _, _ => false
  end.

(** ** The Gemini service wrapper *)

(** A [File]: its bytes, its name and its MIME type. *)
Record File := mkFile {
  file_bytes : list Byte.byte;
  file_name : jsstring;
  file_type : jsstring
}.

(** The outcome of an awaited promise. *)
Inductive Promise (A : Type) :=
| Resolved (a : A)
| Rejected.
Arguments Resolved {A} a.
Arguments Rejected {A}.

(** A data URL with a Base64 payload (RFC 2397):
    ["data:" + type + ";base64," + payload]. *)
Definition dataURL (mime : jsstring) (bs : list Byte.byte) : jsstring :=
  lit "data:" ++ mime ++ lit ";base64," ++ Base64.encode bs.

(** The media type a browser writes into the data URL of a file: the
    type of the file, or the generic one when the file has none. *)
Definition mediaType (file : File) : jsstring :=
  if truthy (file_type file) then file_type file
  else lit "application/octet-stream".

(** [FileReader.readAsDataURL]: the result after a successful read is
    the data URL of the file; after a failed read the result is null. *)
Definition readAsDataURL (readable : bool) (file : File) : option jsstring :=
  if readable then Some (dataURL (mediaType file) (file_bytes file))
  else None.

Record InlineData := mkInlineData {
  data : option jsstring;
  mimeType : jsstring
}.

(** [fileToGenerativePart]: on a read error the promise is rejected
    ([reader.onerror = reject]); otherwise it resolves with what follows
    the first comma of the data URL, up to the next comma
    ([split(',')[1]], undefined when there is no comma). *)
Definition fileToGenerativePart (readable : bool) (file : File)
  : Promise InlineData :=
  match readAsDataURL readable file with
  | Some base64String =>
      let base64Data := nth_error (split comma base64String) 1 in
      Resolved {| data := base64Data; mimeType := file_type file |}
  | None => Rejected
  end.

(** ** The markdown-subset renderer ([MarkdownText]) *)

Module Markdown.

(** Characters the regular-expression dot does not match. *)
Definition isLineTerminator (c : char16) : bool :=
  (c =? 10) || (c =? 13) || (c =? 8232) || (c =? 8233).

(** [(.*?)d] matched at the start of [s]: the shortest run of
    characters other than line terminators that is followed by the
    delimiter [d].  The result is the captured group and what follows
    the delimiter. *)
Fixpoint lazyUntil (d s : jsstring) : option (jsstring * jsstring) :=
  match stripPrefix d s with
  | Some rest => Some ([], rest)
  | None =>
      match s with
      | [] => None
      | c :: s' =>
          if isLineTerminator c then None
          else match lazyUntil d s' with
               | Some (g, rest) => Some (c :: g, rest)
               | None => None
               end
      end
  end.

(** [d(.*?)d] matched at the start of [s]. *)
Definition matchAt (d s : jsstring) : option (jsstring * jsstring) :=
  match stripPrefix d s with
  | Some body => lazyUntil d body
  | None => None
  end.

(** [s.replace(/d(.*?)d/g, tpl)]: the leftmost match from the current
    position is replaced by the template applied to its group, and the
    search resumes after the match; a position without a match keeps
    its character.  Every match consumes at least one character, so
    [length s] steps are enough. *)
Fixpoint replaceLoop (fuel : nat) (d : jsstring)
    (tpl : jsstring -> jsstring) (s : jsstring) : jsstring :=
  match fuel with
  | O => s
  | S n =>
      match s with
      | [] => []
      | c :: s' =>
          match matchAt d s with
          | Some (g, rest) => tpl g ++ replaceLoop n d tpl rest
          | None => c :: replaceLoop n d tpl s'
          end
      end
  end.

Definition replaceDelimited (d : jsstring) (tpl : jsstring -> jsstring)
    (s : jsstring) : jsstring :=
  replaceLoop (List.length s) d tpl s.

Definition boldOpen : jsstring :=
  lit "<b class=" ++ [dquote] ++ lit "font-semibold text-gray-900"
    ++ [dquote] ++ lit ">".
Definition boldClose : jsstring := lit "</b>".
Definition codeOpen : jsstring :=
  lit "<code class=" ++ [dquote]
    ++ lit "bg-gray-100 px-1 py-0.5 rounded text-rose-600 font-mono text-sm"
    ++ [dquote] ++ lit ">".
Definition codeClose : jsstring := lit "</code>".

(** The replacement templates, with [$1] the captured group. *)
Definition boldTemplate (g : jsstring) : jsstring := boldOpen ++ g ++ boldClose.
Definition codeTemplate (g : jsstring) : jsstring := codeOpen ++ g ++ codeClose.

Definition amp : char16 := 38.
Definition lt : char16 := 60.
Definition gt : char16 := 62.

(** The first statement of [formatBold]: three global replacements. *)
Definition escapeHtml (text : jsstring) : jsstring :=
  replaceChar gt (lit "&gt;")
    (replaceChar lt (lit "&lt;")
       (replaceChar amp (lit "&amp;") text)).

(** [formatBold]. *)
Definition formatBold (text : jsstring) : jsstring :=
  let safeText := escapeHtml text in
  let safeText := replaceDelimited (lit "**") boldTemplate safeText in
  let safeText := replaceDelimited (lit "`") codeTemplate safeText in
  safeText.

(** [s.replace(p, r)] for a string pattern: the first occurrence only. *)
Fixpoint replaceFirst (p r s : jsstring) : jsstring :=
  match stripPrefix p s with
  | Some rest => r ++ rest
  | None =>
      match s with
      | [] => []
      | c :: s' => c :: replaceFirst p r s'
      end
  end.

Definition startsWith (p s : jsstring) : bool :=
  match stripPrefix p s with
  | Some _ => true
  | None => false
  end.

(** What a line is rendered as.  Header text is a React text child;
    bullets and paragraphs set their inner HTML. *)
Inductive Block :=
| H4 (text : jsstring)
| H3 (text : jsstring)
| H2 (text : jsstring)
| Bullet (html : jsstring)
| Spacer
| Paragraph (html : jsstring).

Definition renderLine (line : jsstring) : Block :=
  if startsWith (lit "### ") line then H4 (replaceFirst (lit "### ") [] line)
  else if startsWith (lit "## ") line then H3 (replaceFirst (lit "## ") [] line)
  else if startsWith (lit "# ") line then H2 (replaceFirst (lit "# ") [] line)
  else if startsWith (lit "- ") (trim line) || startsWith (lit "* ") (trim line)
  then let cleanLine := skipn 2 (trim line) in Bullet (formatBold cleanLine)
  else if Js.eqb (trim line) [] then Spacer
  else Paragraph (formatBold line).

(** [MarkdownText]: nothing for empty content, else one block per line. *)
Definition MarkdownText (content : jsstring) : option (list Block) :=
  if truthy content then Some (List.map renderLine (split 10 content))
  else None.

(** The inner HTML a block sets, if any. *)
Definition innerHTML (b : Block) : option jsstring :=
  match b with
  | Bullet html | Paragraph html => Some html
  | _ => None
  end.

(** The four tags the templates introduce. *)
Definition fixedTags : list jsstring :=
  [boldOpen; boldClose; codeOpen; codeClose].

(** Markup in which every angle bracket belongs to one of the four
    fixed tags: a sequence of characters other than [<] and [>] and of
    whole fixed tags. *)
Inductive OnlyFixedTags : jsstring -> Prop :=
| oft_nil : OnlyFixedTags []
| oft_char c s :
    c <> lt -> c <> gt -> OnlyFixedTags s -> OnlyFixedTags (c :: s)
| oft_tag t s :
    In t fixedTags -> OnlyFixedTags s -> OnlyFixedTags (t ++ s).

(** Whether no fixed tag holds a character of [d] or a line terminator. *)
Definition apartb (d : jsstring) : bool :=
  forallb (fun t =>
    forallb (fun c => negb (existsb (char_eqb c) d)
                      && negb (isLineTerminator c)) t) fixedTags.

(** The entity (or the character itself) one input character becomes. *)
Definition escapeChar (c : char16) : jsstring :=
  if char_eqb c amp then lit "&amp;"
  else if char_eqb c lt then lit "&lt;"
  else if char_eqb c gt then lit "&gt;"
  else [c].

End Markdown.

(** A content part of a request to the model. *)
Inductive Part :=
| InlineDataPart (imageData : jsstring) (imageMimeType : jsstring)
| TextPart (text : jsstring).

(** The argument of [ai.models.generateContent]. *)
Record Request := mkRequest {
  req_model : jsstring;
  req_role : jsstring;
  req_parts : list Part;
  req_temperature : Q
}.

(** What a handler does besides updating the state. *)
Inductive Effect :=
| Alert (text : jsstring)
| ConsoleError (text : jsstring)
| GenerateContent (req : Request).

(** What the awaited service call does: it returns a response whose
    [text] may be undefined, or it throws an error whose [message] may
    be undefined. *)
Inductive ServiceOutcome :=
| Replies (text : option jsstring)
| Throws (message : option jsstring).

(** The outcome of an awaited call that may throw an [Error]. *)
Inductive Result (A : Type) :=
| Ok (a : A)
| Err (message : jsstring).
Arguments Ok {A} a.
Arguments Err {A} message.

Definition MODEL_NAME : jsstring := lit "gemini-2.5-flash".

Definition newline : jsstring := [10].

(** One line of the instruction template, with its indentation. *)
Definition templateLine (l : jsstring) : jsstring :=
  lit "      " ++ l ++ newline.

(** [a || b] on strings. *)
Definition orElse (a : jsstring) (b : jsstring) : jsstring :=
  if truthy a then a else b.

(** [a || b] on [string | undefined]. *)
Definition orElse_opt (a : option jsstring) (b : jsstring) : jsstring :=
  match a with
  | Some s => orElse s b
  | None => b
  end.

Definition systemInstruction (prompt language : jsstring) : jsstring :=
  newline
  ++ templateLine (lit "You are " ++ [dquote] ++ lit "StudyBuddy" ++ [dquote]
       ++ lit ", an expert academic tutor and homework solver.")
  ++ templateLine []
  ++ templateLine (lit "Current Language Setting: " ++ language)
  ++ templateLine []
  ++ templateLine (lit "Your Goal: Help the student understand the problem, not just give the answer.")
  ++ templateLine []
  ++ templateLine (lit "Guidelines:")
  ++ templateLine (lit "1. Analyze the input (text or image) carefully.")
  ++ templateLine (lit "2. Identify the subject (Math, Physics, History, etc.).")
  ++ templateLine (lit "3. Provide the solution in a clear, step-by-step format.")
  ++ templateLine (lit "4. If it is a math problem, show the working out clearly. Keep mathematical terms (like sin, cos, theta, integral) in standard notation even if explaining in Hindi.")
  ++ templateLine (lit "5. Use bold text for key terms and headers.")
  ++ templateLine (lit "6. Be encouraging and educational.")
  ++ templateLine (lit "7. If the image is unclear, ask the user to upload a clearer photo.")
  ++ templateLine (lit "8. **IMPORTANT**: You MUST provide the entire explanation in "
       ++ language
       ++ lit ". If the user asks in a different language, still default your main explanation to "
       ++ language ++ lit " but acknowledge their language.")
  ++ templateLine []
  ++ templateLine (lit "Student Question/Context:")
  ++ templateLine (orElse prompt (lit "Please solve the problem in the image."))
  ++ lit "    ".

(** The parts [solveHomework] collects: the image, when both its
    payload and its MIME type are truthy, then the instruction text. *)
Definition solveHomework_parts (prompt : jsstring)
    (imageBase64 mimeType : option jsstring) (language : jsstring)
  : list Part :=
  (match imageBase64, mimeType with
   | Some d, Some m =>
       if truthy d && truthy m then [InlineDataPart d m] else []
   | _, _ => []
   end)
  ++ [TextPart (systemInstruction prompt language)].

Definition solveHomework_request (prompt : jsstring)
    (imageBase64 mimeType : option jsstring) (language : jsstring)
  : Request :=
  {| req_model := MODEL_NAME;
     req_role := lit "user";
     req_parts := solveHomework_parts prompt imageBase64 mimeType language;
     req_temperature := 4 # 10 |}.

Definition NO_SOLUTION : jsstring :=
  lit "I couldn't generate a solution. Please try again.".

Definition FAILED_TO_CONNECT : jsstring :=
  lit "Failed to connect to the tutor.".

(** What [solveHomework] makes of the awaited call: the response text
    or the fixed sentence; anything thrown is logged and a fresh
    [Error] is thrown. *)
Definition solveHomework_settle (o : ServiceOutcome)
  : list Effect * Result jsstring :=
  match o with
  | Replies text => ([], Ok (orElse_opt text NO_SOLUTION))
  | Throws message =>
      ([ConsoleError (lit "Gemini API Error:")],
       Err (orElse_opt message FAILED_TO_CONNECT))
  end.

(** [solveHomework], with the service as a function of the request:
    what it does (the request it issues first) and the outcome of its
    promise. *)
Definition solveHomework (ai : Request -> ServiceOutcome)
    (prompt : jsstring) (imageBase64 mimeType : option jsstring)
    (language : jsstring) : list Effect * Result jsstring :=
  let req := solveHomework_request prompt imageBase64 mimeType language in
  let (effects, r) := solveHomework_settle (ai req) in
  (GenerateContent req :: effects, r).

(** ** The application ([App]) *)

Inductive Language := English | Hindi.

Definition Language_string (l : Language) : jsstring :=
  match l with
  | English => lit "English"
  | Hindi => lit "Hindi"
  end.

(** A crop of [react-image-crop]: a rectangle in pixels or percent. *)
Inductive CropUnit := px | percent.

Record Crop := mkCrop {
  crop_unit : CropUnit;
  crop_x : number;
  crop_y : number;
  crop_width : number;
  crop_height : number
}.

(** A crop of which only some fields are given. *)
Record PartialCrop := mkPartialCrop {
  pc_unit : CropUnit;
  pc_x : option number;
  pc_y : option number;
  pc_width : option number;
  pc_height : option number
}.

(** A confirmed crop, in displayed pixels. *)
Record PixelCrop := mkPixelCrop {
  pxc_x : number;
  pxc_y : number;
  pxc_width : number;
  pxc_height : number
}.

(** The rendered image: natural and displayed dimensions. *)
Record HTMLImageElement := mkImage {
  naturalWidth : number;
  naturalHeight : number;
  img_width : number;
  img_height : number
}.

(** The arguments of [ctx.drawImage]. *)
Record DrawImage := mkDrawImage {
  draw_sx : number; draw_sy : number; draw_sw : number; draw_sh : number;
  draw_dx : number; draw_dy : number; draw_dw : number; draw_dh : number
}.

(** The canvas after [getCroppedImg] has set it up and drawn on it. *)
Record Canvas := mkCanvas {
  canvas_width : Z;
  canvas_height : Z;
  ctx_scale : number * number;
  ctx_draw : DrawImage
}.

(** What the browser and the crop library supply. *)
Record Platform := mkPlatform {
  (** [window.devicePixelRatio] *)
  devicePixelRatio : number;
  (** whether [canvas.getContext('2d')] gives a context *)
  getContext2d : bool;
  (** [canvas.toBlob(_, 'image/jpeg')]: the encoded bytes, or null *)
  toBlob : HTMLImageElement -> Canvas -> option (list Byte.byte);
  (** [fetch(url)] then [blob()]: the bytes behind the URL, or a rejection *)
  fetchBlob : jsstring -> option (list Byte.byte);
  (** whether [FileReader] can read the file *)
  readable : File -> bool;
  (** [URL.createObjectURL] *)
  createObjectURL : File -> jsstring;
  (** [makeAspectCrop] and [centerCrop] of [react-image-crop] *)
  makeAspectCrop : PartialCrop -> number -> number -> number -> Crop;
  centerCrop : Crop -> number -> number -> Crop
}.

(** [centerAspectCrop]. *)
Definition centerAspectCrop (P : Platform)
    (mediaWidth mediaHeight aspect : number) : Crop :=
  centerCrop P
    (makeAspectCrop P
       {| pc_unit := percent; pc_x := None; pc_y := None;
          pc_width := Some (90%float); pc_height := None |}
       aspect mediaWidth mediaHeight)
    mediaWidth mediaHeight.

Record SelectedImage := mkSelectedImage {
  base64 : option jsstring;
  sel_mimeType : jsstring;
  preview : jsstring
}.

(** The state of the component. *)
Record State := mkState {
  messages : list Message;
  inputText : jsstring;
  selectedImage : option SelectedImage;
  loadingState : LoadingState;
  language : Language;
  isCropping : bool;
  cropImageSrc : option jsstring;
  crop : option Crop;
  completedCrop : option PixelCrop
}.

Definition setMessages (f : list Message -> list Message) (s : State) : State :=
  mkState (f (messages s)) (inputText s) (selectedImage s) (loadingState s)
    (language s) (isCropping s) (cropImageSrc s) (crop s) (completedCrop s).
Definition setInputText (v : jsstring) (s : State) : State :=
  mkState (messages s) v (selectedImage s) (loadingState s)
    (language s) (isCropping s) (cropImageSrc s) (crop s) (completedCrop s).
Definition setSelectedImage (v : option SelectedImage) (s : State) : State :=
  mkState (messages s) (inputText s) v (loadingState s)
    (language s) (isCropping s) (cropImageSrc s) (crop s) (completedCrop s).
Definition setLoadingState (v : LoadingState) (s : State) : State :=
  mkState (messages s) (inputText s) (selectedImage s) v
    (language s) (isCropping s) (cropImageSrc s) (crop s) (completedCrop s).
Definition setLanguage (v : Language) (s : State) : State :=
  mkState (messages s) (inputText s) (selectedImage s) (loadingState s)
    v (isCropping s) (cropImageSrc s) (crop s) (completedCrop s).
Definition setIsCropping (v : bool) (s : State) : State :=
  mkState (messages s) (inputText s) (selectedImage s) (loadingState s)
    (language s) v (cropImageSrc s) (crop s) (completedCrop s).
Definition setCropImageSrc (v : option jsstring) (s : State) : State :=
  mkState (messages s) (inputText s) (selectedImage s) (loadingState s)
    (language s) (isCropping s) v (crop s) (completedCrop s).
Definition setCrop (v : option Crop) (s : State) : State :=
  mkState (messages s) (inputText s) (selectedImage s) (loadingState s)
    (language s) (isCropping s) (cropImageSrc s) v (completedCrop s).
Definition setCompletedCrop (v : option PixelCrop) (s : State) : State :=
  mkState (messages s) (inputText s) (selectedImage s) (loadingState s)
    (language s) (isCropping s) (cropImageSrc s) (crop s) v.

(** The welcome message: the text holds the waving-hand and the camera
    emoji, each a surrogate pair. *)
Definition welcomeText : jsstring :=
  lit "Hi! I'm StudyBuddy. " ++ [55357; 56395] ++ [10; 10]
  ++ lit "**Select your language** above, then **snap a photo** "
  ++ [55357; 56567] ++ lit " of your homework problem." ++ [10; 10]
  ++ lit "I can explain solutions in **Hindi** or **English**!".

Definition welcome (now : Z) : Message :=
  {| msg_id := lit "welcome"; msg_role := MODEL; msg_text := welcomeText;
     msg_image := None; msg_timestamp := now; msg_isError := None |}.

(** The state of the first render. *)
Definition initialState (now : Z) : State :=
  {| messages := [welcome now]; inputText := []; selectedImage := None;
     loadingState := idle; language := English; isCropping := false;
     cropImageSrc := None; crop := None; completedCrop := None |}.

(** *** Image handling and cropping *)

(** The [load] listener of [onSelectFile]. *)
Definition onSelectFile_load (result : option jsstring) (s : State) : State :=
  let src := if truthy_opt result then result else None in
  setCrop None (setIsCropping true (setCropImageSrc src s)).

(** [onImageLoad]: the initial crop is centered with aspect 16/9 and
    then kept without an aspect. *)
Definition onImageLoad (P : Platform) (width height : number) (s : State)
  : State :=
  let initialCrop := centerAspectCrop P width height (16 / 9)%float in
  let freeCrop := initialCrop in
  setCrop (Some freeCrop) s.

(** [processFinalImage]. *)
Definition processFinalImage (P : Platform) (file : File) (s : State)
  : State * list Effect :=
  match fileToGenerativePart (readable P file) file with
  | Resolved result =>
      (setSelectedImage
         (Some {| base64 := data result;
                  sel_mimeType := mimeType result;
                  preview := createObjectURL P file |}) s,
       [])
  | Rejected =>
      (s, [ConsoleError (lit "Error processing image");
           Alert (lit "Failed to process image.")])
  end.

Definition scaleX (image : HTMLImageElement) : number :=
  (naturalWidth image / img_width image)%float.
Definition scaleY (image : HTMLImageElement) : number :=
  (naturalHeight image / img_height image)%float.

(** The canvas [getCroppedImg] sets up for a confirmed crop: a new
    canvas is 300 by 150, and the two assignments convert the products
    to its dimensions. *)
Definition croppedCanvas (P : Platform) (image : HTMLImageElement)
    (completedCrop : PixelCrop) : Canvas :=
  let pixelRatio := devicePixelRatio P in
  let cropX := (pxc_x completedCrop * scaleX image)%float in
  let cropY := (pxc_y completedCrop * scaleY image)%float in
  let cropWidth := (pxc_width completedCrop * scaleX image)%float in
  let cropHeight := (pxc_height completedCrop * scaleY image)%float in
  {| canvas_width :=
       canvasDimension 300
         (pxc_width completedCrop * scaleX image * pixelRatio)%float;
     canvas_height :=
       canvasDimension 150
         (pxc_height completedCrop * scaleY image * pixelRatio)%float;
     ctx_scale := (pixelRatio, pixelRatio);
     ctx_draw :=
       {| draw_sx := cropX; draw_sy := cropY;
          draw_sw := cropWidth; draw_sh := cropHeight;
          draw_dx := 0%float; draw_dy := 0%float;
          draw_dw := (pxc_width completedCrop * scaleX image)%float;
          draw_dh := (pxc_height completedCrop * scaleY image)%float |} |}.

Definition JPEG : jsstring := lit "image/jpeg".

(** [getCroppedImg], the handler of the Done button; [imgRef] is the
    current value of the image ref. *)
Definition getCroppedImg (P : Platform) (imgRef : option HTMLImageElement)
    (s : State) : State * list Effect :=
  match imgRef, completedCrop s, truthy_opt (cropImageSrc s) with
  | Some image, Some cc, true =>
      let canvas := croppedCanvas P image cc in
      if getContext2d P then
        match toBlob P image canvas with
        | Some blob =>
            let file := mkFile blob (lit "cropped.jpg") JPEG in
            let (s1, effects) := processFinalImage P file s in
            (setCropImageSrc None (setIsCropping false s1), effects)
        | None => (s, [])
        end
      else (s, [])
  | _, _, _ =>
      match cropImageSrc s with
      | Some src =>
          if truthy src then
            match fetchBlob P src with
            | Some blob =>
                let file := mkFile blob (lit "image.jpg") JPEG in
                let (s1, effects) := processFinalImage P file s in
                (setIsCropping false s1, effects)
            | None => (s, [])
            end
          else (s, [])
      | None => (s, [])
      end
  end.

Definition clearImage (s : State) : State := setSelectedImage None s.

Definition cancelCrop (s : State) : State :=
  setCropImageSrc None (setIsCropping false s).

(** *** Chat logic *)

(** A message id, as [generateId] draws them. *)
Definition MessageId := jsstring.

Definition APOLOGY : jsstring :=
  lit "Sorry, I encountered an error. Please check your connection.".

(** The guard of [handleSendMessage] (and of the Send button). *)
Definition sendRejected (s : State) : bool :=
  (negb (truthy (trim (inputText s)))
   && match selectedImage s with Some _ => false | None => true end)
  || negb (LoadingState_eqb (loadingState s) idle).

Definition currentBase64 (img : option SelectedImage) : option jsstring :=
  match img with
  | Some i => base64 i
  | None => None
  end.

Definition currentMimeType (img : option SelectedImage) : option jsstring :=
  match img with
  | Some i => Some (sel_mimeType i)
  | None => None
  end.

(** [handleSendMessage] up to its [await]: the new state and the
    request handed to the service, if any. *)
Definition handleSendMessage_begin (userMessageId : MessageId) (now : Z)
    (s : State) : State * option Request :=
  if sendRejected s then (s, None)
  else
    let currentText := inputText s in
    let currentImage := selectedImage s in
    let newUserMessage :=
      {| msg_id := userMessageId; msg_role := USER; msg_text := currentText;
         msg_image := currentBase64 currentImage; msg_timestamp := now;
         msg_isError := None |} in
    let s1 := setMessages (fun prev => prev ++ [newUserMessage]) s in
    let s2 := setInputText [] s1 in
    let s3 := clearImage s2 in
    let s4 := setLoadingState thinking s3 in
    (s4, Some (solveHomework_request currentText (currentBase64 currentImage)
                 (currentMimeType currentImage)
                 (Language_string (language s)))).

(** [handleSendMessage] is created anew by every render and closes
    over the state of that render.  Run on the state [s] by the handler
    of the render of [rendered], it reads the guard, the text, the
    image and the language from [rendered]; the functional update of
    the messages acts on the list of [s], and the other setters
    overwrite. *)
Definition handleSendMessage_of_render (rendered : State)
    (userMessageId : MessageId) (now : Z) (s : State)
  : State * option Request :=
  if sendRejected rendered then (s, None)
  else
    let currentText := inputText rendered in
    let currentImage := selectedImage rendered in
    let newUserMessage :=
      {| msg_id := userMessageId; msg_role := USER; msg_text := currentText;
         msg_image := currentBase64 currentImage; msg_timestamp := now;
         msg_isError := None |} in
    let s1 := setMessages (fun prev => prev ++ [newUserMessage]) s in
    let s2 := setInputText [] s1 in
    let s3 := clearImage s2 in
    let s4 := setLoadingState thinking s3 in
    (s4, Some (solveHomework_request currentText (currentBase64 currentImage)
                 (currentMimeType currentImage)
                 (Language_string (language rendered)))).

(** [handleSendMessage] after its [await]: the [try] continues with the
    response text, or the [catch] runs; [finally] follows both. *)
Definition handleSendMessage_resume (id : MessageId) (now : Z)
    (r : Result jsstring) (s : State) : State :=
  let s1 :=
    match r with
    | Ok responseText =>
        let newModelMessage :=
          {| msg_id := id; msg_role := MODEL; msg_text := responseText;
             msg_image := None; msg_timestamp := now; msg_isError := None |} in
        setMessages (fun prev => prev ++ [newModelMessage]) s
    | Err _ =>
        let errorMessage :=
          {| msg_id := id; msg_role := MODEL; msg_text := APOLOGY;
             msg_image := None; msg_timestamp := now;
             msg_isError := Some true |} in
        setMessages (fun prev => prev ++ [errorMessage]) s
    end in
  setLoadingState idle s1.

(** The random ids and clock readings one run of [handleSendMessage]
    draws, and the service it calls. *)
Record SendEnv := mkSendEnv {
  userMessageId : MessageId;
  userNow : Z;
  replyId : MessageId;
  replyNow : Z;
  ai : Request -> ServiceOutcome
}.

(** A whole run of [handleSendMessage], with nothing else happening
    while the service call is awaited. *)
Definition handleSendMessage (E : SendEnv) (s : State)
  : State * list Effect :=
  match handleSendMessage_begin (userMessageId E) (userNow E) s with
  | (s1, Some req) =>
      let (effects, r) := solveHomework_settle (ai E req) in
      (handleSendMessage_resume (replyId E) (replyNow E) r s1,
       GenerateContent req :: effects)
  | (s1, None) => (s1, [])
  end.

(** The request [handleSendMessage] issues for a state. *)
Definition requestOf (s : State) : Request :=
  solveHomework_request (inputText s) (currentBase64 (selectedImage s))
    (currentMimeType (selectedImage s)) (Language_string (language s)).

(** The user message [handleSendMessage] creates for a state. *)
Definition userMessageOf (id : MessageId) (now : Z) (s : State) : Message :=
  {| msg_id := id; msg_role := USER; msg_text := inputText s;
     msg_image := currentBase64 (selectedImage s); msg_timestamp := now;
     msg_isError := None |}.

(** The Clear Chat button: [setMessages(prev => [prev[0]])].  The list
    it is applied to is never empty, see [messages_never_empty]. *)
Definition clearChat (s : State) : State :=
  setMessages (fun prev => firstn 1 prev) s.

(** *** The events of the component *)

Inductive Event :=
| FileLoaded (result : option jsstring)
| ImageLoad (width height : number)
| CropChange (percentCrop : Crop)
| CropComplete (c : PixelCrop)
| DoneClick (imgRef : option HTMLImageElement)
| CancelClick
| ClearImageClick
| InputChange (text : jsstring)
| LanguageChange (l : Language)
| SendClick (id : MessageId) (now : Z)
| ServiceSettled (id : MessageId) (now : Z) (o : ServiceOutcome)
| ClearChatClick.

(** One event, taken by the handlers of the render of the state it
    meets: the component has rendered again since the event before.
    What a handler of an older render does is
    [handleSendMessage_of_render]. *)
Definition step (P : Platform) (s : State) (e : Event)
  : State * list Effect :=
  match e with
  | FileLoaded result => (onSelectFile_load result s, [])
  | ImageLoad w h => (onImageLoad P w h s, [])
  | CropChange c => (setCrop (Some c) s, [])
  | CropComplete c => (setCompletedCrop (Some c) s, [])
  | DoneClick imgRef => getCroppedImg P imgRef s
  | CancelClick => (cancelCrop s, [])
  | ClearImageClick => (clearImage s, [])
  | InputChange text => (setInputText text s, [])
  | LanguageChange l => (setLanguage l s, [])
  | SendClick id now =>
      match handleSendMessage_begin id now s with
      | (s1, Some req) => (s1, [GenerateContent req])
      | (s1, None) => (s1, [])
      end
  | ServiceSettled id now o =>
      let (effects, r) := solveHomework_settle o in
      (handleSendMessage_resume id now r s, effects)
  | ClearChatClick => (clearChat s, [])
  end.

(** The states the component can be in. *)
Inductive Reachable (P : Platform) : State -> Prop :=
| reach_init now : Reachable P (initialState now)
| reach_step s e : Reachable P s -> Reachable P (fst (step P s e)).

(** ** The chat bubble ([ChatBubble]) *)

Definition Role_eqb (a b : Role) : bool :=
  match a, b with
  | USER, USER | MODEL, MODEL => true
  | _, _ => false
  end.

(** The text content of a bubble: the text itself for the user, the
    rendered markdown for the model. *)
Inductive BubbleBody :=
| PlainText (text : jsstring)
| Rendered (blocks : option (list Markdown.Block)).

(** What [ChatBubble] shows of a message: the side, the header of the
    bot, the source of the image element if there is one, the text
    content, and the time stamp handed to the clock display. *)
Record Bubble := mkBubble {
  bubble_isUser : bool;
  bubble_header : bool;
  bubble_image : option jsstring;
  bubble_body : BubbleBody;
  bubble_time : Z
}.

Definition ChatBubble (message : Message) : Bubble :=
  let isUser := Role_eqb (msg_role message) USER in
  {| bubble_isUser := isUser;
     bubble_header := negb isUser;
     bubble_image :=
       match msg_image message with
       | Some image =>
           if truthy image then Some (lit "data:image/jpeg;base64," ++ image)
           else None
       | None => None
       end;
     bubble_body :=
       if isUser then PlainText (msg_text message)
       else Rendered (Markdown.MarkdownText (msg_text message));
     bubble_time := msg_timestamp message |}.

(** The strings a bubble sets as inner HTML. *)
Definition bubbleHTML (b : Bubble) : list jsstring :=
  match bubble_body b with
  | PlainText _ => []
  | Rendered None => []
  | Rendered (Some blocks) =>
      flat_map (fun blk => match Markdown.innerHTML blk with
                           | Some html => [html]
                           | None => []
                           end) blocks
  end.

(** The chat area of [App]: one bubble per message, and the typing
    indicator while the answer is awaited. *)
Definition chatArea (s : State) : list Bubble * bool :=
  (List.map ChatBubble (messages s), LoadingState_eqb (loadingState s) thinking).

(** ** Concrete inputs

    A platform and a few states and files on which the handlers are
    run in the examples below. *)

Module Sample.

(** The bytes behind a data URL: the decoded payload after the comma. *)
Definition fetchDataURL (src : jsstring) : option (list Byte.byte) :=
  match nth_error (split comma src) 1 with
  | Some payload => Base64.decode payload
  | None => None
  end.

Definition jpegBytes : list Byte.byte :=
  [Byte.xff; Byte.xd8; Byte.xff; Byte.xe0; Byte.x00; Byte.x10].

Definition pngBytes : list Byte.byte :=
  [Byte.x89; Byte.x50; Byte.x4e; Byte.x47; Byte.x0d; Byte.x0a; Byte.x1a;
   Byte.x0a].

(** A platform with pixel density 1 on which everything succeeds; its
    crop library proposes a fixed rectangle. *)
Definition platform : Platform :=
  {| devicePixelRatio := 1;
     getContext2d := true;
     toBlob := fun _ _ => Some jpegBytes;
     fetchBlob := fetchDataURL;
     readable := fun _ => true;
     createObjectURL := fun _ => lit "blob:preview";
     makeAspectCrop := fun _ _ _ _ => mkCrop percent 0 0 90 90;
     centerCrop := fun c _ _ =>
       mkCrop (crop_unit c) 5 5 (crop_width c) (crop_height c) |}.

Definition pngFile : File :=
  mkFile pngBytes (lit "photo.png") (lit "image/png").

(** A typed question, not yet sent. *)
Definition typed : State :=
  fst (step platform (initialState 0) (InputChange (lit "2+2?"))).

(** The question sent and the answer awaited. *)
Definition awaiting : State :=
  fst (step platform typed (SendClick (lit "u1") 1)).

(** A picked photo shown in the crop dialog, no crop confirmed. *)
Definition picked : State :=
  fst (step platform (initialState 0)
         (FileLoaded (readAsDataURL true pngFile))).

(** The photo accepted as it is with the Done button. *)
Definition accepted : State :=
  fst (step platform picked (DoneClick None)).

(** The displayed image of the end-to-end example: 1200 by 800 shown
    at 600 by 400. *)
Definition image1200 : HTMLImageElement := mkImage 1200 800 600 400.

Definition crop400 : PixelCrop := mkPixelCrop 100 100 400 300.

(** The photo cropped with a confirmed rectangle. *)
Definition cropped : State :=
  fst (step platform
         (fst (step platform picked (CropComplete crop400)))
         (DoneClick (Some image1200))).

(** A run in which the service throws, and one in which it answers
    without text. *)
Definition failing : SendEnv :=
  mkSendEnv (lit "u1") 1 (lit "m1") 2 (fun _ => Throws None).

Definition speechless : SendEnv :=
  mkSendEnv (lit "u1") 1 (lit "m1") 2 (fun _ => Replies None).

End Sample.

(** Further platforms and states for the examples. *)

Module MoreSamples.

(** A platform on which no file can be read. *)
Definition unreadable : Platform :=
  {| devicePixelRatio := devicePixelRatio Sample.platform;
     getContext2d := true;
     toBlob := toBlob Sample.platform;
     fetchBlob := fetchBlob Sample.platform;
     readable := fun _ => false;
     createObjectURL := createObjectURL Sample.platform;
     makeAspectCrop := makeAspectCrop Sample.platform;
     centerCrop := centerCrop Sample.platform |}.

(** A platform whose canvas gives no 2d context. *)
Definition contextless : Platform :=
  {| devicePixelRatio := devicePixelRatio Sample.platform;
     getContext2d := false;
     toBlob := toBlob Sample.platform;
     fetchBlob := fetchBlob Sample.platform;
     readable := readable Sample.platform;
     createObjectURL := createObjectURL Sample.platform;
     makeAspectCrop := makeAspectCrop Sample.platform;
     centerCrop := centerCrop Sample.platform |}.

(** The picked photo with a confirmed crop. *)
Definition confirmed : State :=
  fst (step Sample.platform Sample.picked (CropComplete Sample.crop400)).

(** Only blanks typed, nothing selected. *)
Definition blank : State :=
  fst (step Sample.platform (initialState 0) (InputChange (lit "   "))).

(** A run in which the service answers with a text. *)
Definition answering : SendEnv :=
  mkSendEnv (lit "u1") 1 (lit "m1") 2
    (fun _ => Replies (Some (lit "**4**"))).

(** A run in which the service throws an error with a message. *)
Definition refusing : SendEnv :=
  mkSendEnv (lit "u1") 1 (lit "m1") 2
    (fun _ => Throws (Some (lit "quota exceeded"))).

End MoreSamples.

(** ** Vocabulary of the properties *)

(** A text without the characters of the bold and code markers. *)
Definition markerFree (s : jsstring) : bool :=
  forallb (fun c => negb (char_eqb c 42 || char_eqb c 96)) s.

(** A character that is neither escaped nor part of a marker. *)
Definition plainChar (c : char16) : bool :=
  negb (char_eqb c Markdown.amp || char_eqb c Markdown.lt
        || char_eqb c Markdown.gt || char_eqb c 42 || char_eqb c 96).

(** A text of plain characters. *)
Definition plainText (s : jsstring) : bool := forallb plainChar s.

(** A text the regular-expression dot matches throughout. *)
Definition oneLine (s : jsstring) : bool :=
  forallb (fun c => negb (Markdown.isLineTerminator c)) s.

Definition blankText (s : jsstring) : bool := forallb isWhiteSpace s.

(** The number of line feeds of a text. *)
Definition lineFeeds (s : jsstring) : nat := count_occ N.eq_dec s 10.

(** How the handlers flag messages: the error flag is set on apologies
    of the model only and is never false, messages of the user have no
    flag, and messages of the model have no image. *)
Definition flaggedByHandlers (m : Message) : Prop :=
  msg_isError m <> Some false
  /\ (msg_isError m = Some true ->
      msg_role m = MODEL /\ msg_text m = APOLOGY)
  /\ (msg_role m = USER -> msg_isError m = None)
  /\ (msg_role m = MODEL -> msg_image m = None).

(** Whether an effect is a call of the AI service. *)
Definition isServiceCall (e : Effect) : bool :=
  match e with
  | GenerateContent _ => true
  | _ => false
  end.

(** * Properties *)

Module JsFacts.

Lemma char_eqb_eq a b : char_eqb a b = true <-> a = b.
Proof. apply N.eqb_eq. Qed.

Lemma char_eqb_neq a b : char_eqb a b = false <-> a <> b.
Proof. apply N.eqb_neq. Qed.

Lemma char_eqb_refl a : char_eqb a a = true.
Proof. apply N.eqb_refl. Qed.

Lemma stripPrefix_spec p : forall s rest,
  stripPrefix p s = Some rest -> s = p ++ rest.
Proof.
  induction p as [|a p IH]; intros s rest H; cbn in H.
  - now inversion H.
  - destruct s as [|b s]; [discriminate|].
    destruct (char_eqb a b) eqn:E; [|discriminate].
    apply char_eqb_eq in E. subst b. cbn. f_equal. now apply IH.
Qed.

Lemma stripPrefix_app p rest : stripPrefix p (p ++ rest) = Some rest.
Proof.
  induction p as [|a p IH]; cbn; [reflexivity|].
  now rewrite char_eqb_refl.
Qed.

Lemma replaceChar_app c r a b :
  replaceChar c r (a ++ b) = replaceChar c r a ++ replaceChar c r b.
Proof.
  induction a as [|x a IH]; cbn; [reflexivity|].
  now rewrite IH, app_assoc.
Qed.

Lemma split_no_sep sep s : ~ In sep s -> split sep s = [s].
Proof.
  induction s as [|c s IH]; cbn; intros H; [reflexivity|].
  destruct (char_eqb c sep) eqn:E.
  - apply char_eqb_eq in E. exfalso. apply H. now left.
  - rewrite IH; [reflexivity|]. intros Hin. apply H. now right.
Qed.

Lemma split_app_sep sep p q :
  ~ In sep p -> split sep (p ++ sep :: q) = p :: split sep q.
Proof.
  induction p as [|c p IH]; cbn; intros H.
  - now rewrite char_eqb_refl.
  - destruct (char_eqb c sep) eqn:E.
    + apply char_eqb_eq in E. exfalso. apply H. now left.
    + rewrite IH; [reflexivity|]. intros Hin. apply H. now right.
Qed.

End JsFacts.

Module Base64Facts.
Import Base64.

Ltac nlia := zify; Z.to_euclidean_division_equations; lia.

Ltac split_if :=
  match goal with
  | |- context [ if ?b then _ else _ ] =>
      lazymatch b with
      | context [ if _ then _ else _ ] => fail
      | _ => let E := fresh "E" in destruct b eqn:E
      end
  end.

Ltac reflect_N :=
  repeat match goal with
  | H : _ && _ = true |- _ => apply andb_true_iff in H; destruct H
  | H : _ && _ = false |- _ => apply andb_false_iff in H; destruct H
  | H : _ || _ = true |- _ => apply orb_true_iff in H; destruct H
  | H : _ || _ = false |- _ => apply orb_false_iff in H; destruct H
  | H : (_ <=? _) = true |- _ => apply N.leb_le in H
  | H : (_ <=? _) = false |- _ => apply N.leb_gt in H
  | H : (_ <? _) = true |- _ => apply N.ltb_lt in H
  | H : (_ <? _) = false |- _ => apply N.ltb_ge in H
  | H : (_ =? _) = true |- _ => apply N.eqb_eq in H
  | H : (_ =? _) = false |- _ => apply N.eqb_neq in H
  end.

Lemma dec6_enc6 i : i < 64 -> dec6 (enc6 i) = Some i.
Proof.
  intros Hi. unfold enc6.
  repeat split_if; unfold dec6; repeat split_if; reflect_N;
    solve [ f_equal; lia | exfalso; lia ].
Qed.

Lemma enc6_not_pad i : char_eqb (enc6 i) pad = false.
Proof.
  unfold enc6, char_eqb, pad. repeat split_if; reflect_N; apply N.eqb_neq; lia.
Qed.

Lemma enc6_not_comma i : enc6 i <> comma.
Proof.
  unfold enc6, comma. repeat split_if; reflect_N; lia.
Qed.

Lemma byte1_spec a b :
  a <= 255 -> b <= 255 ->
  (a / 4) * 4 + ((a mod 4) * 16 + b / 16) / 16 = a.
Proof. intros. nlia. Qed.

Lemma byte2_spec a b c :
  a <= 255 -> b <= 255 -> c <= 255 ->
  (((a mod 4) * 16 + b / 16) mod 16) * 16 + ((b mod 16) * 4 + c / 64) / 4 = b.
Proof. intros. nlia. Qed.

Lemma byte3_spec b c :
  b <= 255 -> c <= 255 ->
  (((b mod 16) * 4 + c / 64) mod 4) * 64 + c mod 64 = c.
Proof. intros. nlia. Qed.


Lemma list_ind3 {A} (P : list A -> Prop) :
  P [] -> (forall a, P [a]) -> (forall a b, P [a; b]) ->
  (forall a b c l, P l -> P (a :: b :: c :: l)) ->
  forall l, P l.
Proof.
  intros H0 H1 H2 H3 l.
  enough (H : P l /\ (forall a, P (a :: l)) /\ (forall a b, P (a :: b :: l)))
    by apply H.
  induction l as [|x l (IH0 & IH1 & IH2)]; repeat split; auto.
Qed.

Lemma sextets a b c :
  a <= 255 -> b <= 255 -> c <= 255 ->
  a / 4 < 64 /\ (a mod 4) * 16 + b / 16 < 64
  /\ (b mod 16) * 4 + c / 64 < 64 /\ c mod 64 < 64.
Proof. intros. repeat split; nlia. Qed.

Lemma byte1_enc a b :
  byte1 (Byte.to_N a / 4) ((Byte.to_N a mod 4) * 16 + Byte.to_N b / 16)
  = Some a.
Proof.
  unfold byte1. rewrite byte1_spec by apply Byte.to_N_bounded.
  apply Byte.of_to_N.
Qed.

Lemma byte2_enc a b c :
  byte2 ((Byte.to_N a mod 4) * 16 + Byte.to_N b / 16)
        ((Byte.to_N b mod 16) * 4 + Byte.to_N c / 64)
  = Some b.
Proof.
  unfold byte2. rewrite byte2_spec by apply Byte.to_N_bounded.
  apply Byte.of_to_N.
Qed.

Lemma byte3_enc b c :
  byte3 ((Byte.to_N b mod 16) * 4 + Byte.to_N c / 64) (Byte.to_N c mod 64)
  = Some c.
Proof.
  unfold byte3. rewrite byte3_spec by apply Byte.to_N_bounded.
  apply Byte.of_to_N.
Qed.

Lemma decode_group c0 c1 c2 c3 rest x0 x1 x2 x3 :
  dec6 c0 = Some x0 -> dec6 c1 = Some x1 ->
  dec6 c2 = Some x2 -> dec6 c3 = Some x3 ->
  char_eqb c3 pad = false ->
  decode (c0 :: c1 :: c2 :: c3 :: rest) =
  match byte1 x0 x1, byte2 x1 x2, byte3 x2 x3, decode rest with
  | Some a, Some b, Some c, Some bs => Some (a :: b :: c :: bs)
  | _, _, _, _ => None
  end.
Proof.
  intros E0 E1 E2 E3 Ep. cbn [decode]. rewrite E0, E1, Ep, E2, E3. reflexivity.
Qed.

Theorem decode_encode bs : decode (encode bs) = Some bs.
Proof.
  induction bs as [|a|a b|a b c rest IH] using list_ind3.
  - reflexivity.
  - pose proof (Byte.to_N_bounded a) as Ha.
    destruct (sextets (Byte.to_N a) 0 0 Ha) as (S0 & S1 & _); try lia.
    cbn [encode decode].
    rewrite (dec6_enc6 _ S0).
    replace (Byte.to_N a mod 4 * 16) with (Byte.to_N a mod 4 * 16 + 0 / 16)
      by (cbn; lia).
    rewrite (dec6_enc6 _ S1).
    cbn [char_eqb pad N.eqb Pos.eqb].
    change (0 / 16) with (Byte.to_N Byte.x00 / 16).
    now rewrite byte1_enc.
  - pose proof (Byte.to_N_bounded a) as Ha.
    pose proof (Byte.to_N_bounded b) as Hb.
    destruct (sextets (Byte.to_N a) (Byte.to_N b) 0 Ha Hb) as (S0 & S1 & S2 & _);
      try lia.
    cbn [encode decode].
    rewrite (dec6_enc6 _ S0), (dec6_enc6 _ S1).
    replace (Byte.to_N b mod 16 * 4) with (Byte.to_N b mod 16 * 4 + 0 / 64)
      by (cbn; lia).
    rewrite enc6_not_pad, (dec6_enc6 _ S2).
    cbn [char_eqb pad N.eqb Pos.eqb].
    change (0 / 64) with (Byte.to_N Byte.x00 / 64).
    now rewrite byte1_enc, byte2_enc.
  - pose proof (Byte.to_N_bounded a) as Ha.
    pose proof (Byte.to_N_bounded b) as Hb.
    pose proof (Byte.to_N_bounded c) as Hc.
    destruct (sextets _ _ _ Ha Hb Hc) as (S0 & S1 & S2 & S3).
    cbn [encode].
    rewrite (decode_group _ _ _ _ _ _ _ _ _
               (dec6_enc6 _ S0) (dec6_enc6 _ S1) (dec6_enc6 _ S2)
               (dec6_enc6 _ S3) (enc6_not_pad _)).
    now rewrite byte1_enc, byte2_enc, byte3_enc, IH.
Qed.

End Base64Facts.

Module MarkdownFacts.
Import Markdown JsFacts.

Lemma lazyUntil_spec d : forall s g rest,
  lazyUntil d s = Some (g, rest) -> s = g ++ d ++ rest.
Proof.
  induction s as [|c s IH]; intros g rest H; cbn in H.
  - destruct (stripPrefix d []) eqn:E; [|discriminate].
    inversion H; subst. now apply stripPrefix_spec in E.
  - destruct (stripPrefix d (c :: s)) eqn:E.
    + inversion H; subst. now apply stripPrefix_spec in E.
    + destruct (isLineTerminator c); [discriminate|].
      destruct (lazyUntil d s) as [[g' r']|] eqn:E'; [|discriminate].
      inversion H; subst. cbn. f_equal. now apply IH.
Qed.

Lemma matchAt_spec d s g rest :
  matchAt d s = Some (g, rest) -> s = d ++ g ++ d ++ rest.
Proof.
  unfold matchAt. destruct (stripPrefix d s) as [body|] eqn:E; [|discriminate].
  intros H. apply lazyUntil_spec in H. apply stripPrefix_spec in E.
  now subst.
Qed.

Section Delimited.

Variable d0 : char16.
Variable dr : jsstring.
Variable tpl : jsstring -> jsstring.

Lemma matchAt_shorter s g rest :
  matchAt (d0 :: dr) s = Some (g, rest) -> (List.length rest < List.length s)%nat.
Proof.
  intros H. apply matchAt_spec in H. subst s.
  rewrite !length_app. cbn. lia.
Qed.

(** Fuel beyond the length of the text changes nothing. *)
Lemma replaceLoop_fuel : forall n m s,
  (List.length s <= n)%nat -> (List.length s <= m)%nat ->
  replaceLoop n (d0 :: dr) tpl s = replaceLoop m (d0 :: dr) tpl s.
Proof.
  induction n as [|n IH]; intros m s Hn Hm.
  - destruct s; [|cbn in Hn; lia]. now destruct m.
  - destruct m as [|m]; [destruct s; [reflexivity|cbn in Hm; lia]|].
    destruct s as [|c s]; [reflexivity|]. cbn [replaceLoop].
    destruct (matchAt (d0 :: dr) (c :: s)) as [[g rest]|] eqn:E.
    + apply matchAt_shorter in E. cbn in *. f_equal. apply IH; lia.
    + cbn in *. f_equal. apply IH; lia.
Qed.

Lemma replaceDelimited_nil : replaceDelimited (d0 :: dr) tpl [] = [].
Proof. reflexivity. Qed.

Lemma replaceDelimited_cons c s :
  replaceDelimited (d0 :: dr) tpl (c :: s) =
  match matchAt (d0 :: dr) (c :: s) with
  | Some (g, rest) => tpl g ++ replaceDelimited (d0 :: dr) tpl rest
  | None => c :: replaceDelimited (d0 :: dr) tpl s
  end.
Proof.
  unfold replaceDelimited. cbn [List.length replaceLoop].
  destruct (matchAt (d0 :: dr) (c :: s)) as [[g rest]|] eqn:E; [|reflexivity].
  apply matchAt_shorter in E. cbn in E. f_equal.
  apply replaceLoop_fuel; lia.
Qed.

(** A run of characters without the first delimiter character is
    copied. *)
Lemma replaceDelimited_skip u s :
  ~ In d0 u ->
  replaceDelimited (d0 :: dr) tpl (u ++ s) = u ++ replaceDelimited (d0 :: dr) tpl s.
Proof.
  induction u as [|c u IH]; intros H; [reflexivity|].
  cbn [app]. rewrite replaceDelimited_cons.
  unfold matchAt. cbn [stripPrefix].
  destruct (char_eqb d0 c) eqn:E.
  - apply char_eqb_eq in E. exfalso. apply H. now left.
  - f_equal. apply IH. intros Hin. apply H. now right.
Qed.

Lemma lazyUntil_skip u s :
  ~ In d0 u ->
  Forall (fun c => isLineTerminator c = false) u ->
  lazyUntil (d0 :: dr) (u ++ s) =
  match lazyUntil (d0 :: dr) s with
  | Some (g, rest) => Some (u ++ g, rest)
  | None => None
  end.
Proof.
  intros H Hl. induction Hl as [|c u Hc Hl IH].
  - cbn [app]. now destruct (lazyUntil (d0 :: dr) s) as [[g r]|].
  - cbn [app lazyUntil stripPrefix].
    destruct (char_eqb d0 c) eqn:E.
    + apply char_eqb_eq in E. exfalso. apply H. now left.
    + rewrite Hc, IH.
      * now destruct (lazyUntil (d0 :: dr) s) as [[g r]|].
      * intros Hin. apply H. now right.
Qed.

(** The delimiter characters occur in no fixed tag, and the dot matches
    every character of a tag. *)
Hypothesis tags_apart :
  forall t, In t fixedTags ->
    (forall c, In c (d0 :: dr) -> ~ In c t)
    /\ Forall (fun c => isLineTerminator c = false) t.

Hypothesis tpl_tags :
  forall g, OnlyFixedTags g -> OnlyFixedTags (tpl g).

Lemma fixedTags_nonempty t : In t fixedTags -> t <> [].
Proof.
  unfold fixedTags. cbn. intros [H|[H|[H|[H|[]]]]]; subst; discriminate.
Qed.

Lemma oft_app a b :
  OnlyFixedTags a -> OnlyFixedTags b -> OnlyFixedTags (a ++ b).
Proof.
  induction 1 as [|c s Hl Hg Hs IH|t s Ht Hs IH]; intros Hb; cbn.
  - assumption.
  - constructor; auto.
  - rewrite <- app_assoc. constructor; auto.
Qed.

Lemma oft_tail c s :
  In c (d0 :: dr) -> OnlyFixedTags (c :: s) -> OnlyFixedTags s.
Proof.
  intros Hc H. remember (c :: s) as l eqn:El.
  destruct H as [|c' s' _ _ Hs|t s' Ht Hs].
  - discriminate.
  - now inversion El; subst.
  - destruct t as [|x t']; [now apply fixedTags_nonempty in Ht|].
    inversion El; subst. exfalso.
    apply (proj1 (tags_apart _ Ht) c Hc). now left.
Qed.

Lemma oft_stripPrefix p : forall s rest,
  incl p (d0 :: dr) -> OnlyFixedTags s -> stripPrefix p s = Some rest ->
  OnlyFixedTags rest.
Proof.
  induction p as [|a p IH]; intros s rest Hp Hs H; cbn in H.
  - now inversion H; subst.
  - destruct s as [|b s]; [discriminate|].
    destruct (char_eqb a b) eqn:E; [|discriminate].
    apply char_eqb_eq in E. subst b.
    apply (IH s); auto.
    + intros x Hx. apply Hp. now right.
    + apply (oft_tail a); auto. apply Hp. now left.
Qed.

Lemma oft_lazyUntil s :
  OnlyFixedTags s -> forall g rest,
  lazyUntil (d0 :: dr) s = Some (g, rest) -> OnlyFixedTags g /\ OnlyFixedTags rest.
Proof.
  induction 1 as [|c s Hl Hg Hs IH|t s Ht Hs IH]; intros g rest H.
  - cbn in H. discriminate.
  - cbn [lazyUntil] in H.
    destruct (stripPrefix (d0 :: dr) (c :: s)) as [r|] eqn:E.
    + inversion H; subst. split; [constructor|].
      apply (oft_stripPrefix (d0 :: dr) (c :: s)); auto using incl_refl.
      now constructor.
    + destruct (isLineTerminator c); [discriminate|].
      destruct (lazyUntil (d0 :: dr) s) as [[g' r']|] eqn:E'; [|discriminate].
      inversion H; subst. destruct (IH _ _ eq_refl) as [Hg' Hr'].
      split; [now constructor|assumption].
  - destruct (tags_apart _ Ht) as [Hd Hdot].
    rewrite lazyUntil_skip in H; auto.
    + destruct (lazyUntil (d0 :: dr) s) as [[g' r']|] eqn:E'; [|discriminate].
      inversion H; subst. destruct (IH _ _ eq_refl) as [Hg' Hr'].
      split; [now constructor|assumption].
    + apply Hd. now left.
Qed.

Lemma oft_matchAt s g rest :
  OnlyFixedTags s -> matchAt (d0 :: dr) s = Some (g, rest) ->
  OnlyFixedTags g /\ OnlyFixedTags rest.
Proof.
  unfold matchAt. intros Hs H.
  destruct (stripPrefix (d0 :: dr) s) as [body|] eqn:E; [|discriminate].
  apply (oft_lazyUntil body); auto.
  apply (oft_stripPrefix (d0 :: dr) s); auto using incl_refl.
Qed.

Lemma oft_replaceDelimited_len : forall n s,
  (List.length s <= n)%nat -> OnlyFixedTags s ->
  OnlyFixedTags (replaceDelimited (d0 :: dr) tpl s).
Proof.
  induction n as [|n IH]; intros s Hn Hs.
  - destruct s; [constructor|cbn in Hn; lia].
  - destruct Hs as [|c s Hl Hg Hs|t s Ht Hs].
    + constructor.
    + rewrite replaceDelimited_cons.
      destruct (matchAt (d0 :: dr) (c :: s)) as [[g rest]|] eqn:E.
      * pose proof (matchAt_shorter _ _ _ E) as Hlen.
        destruct (oft_matchAt (c :: s) g rest) as [Hg' Hr']; auto.
        { now constructor. }
        apply oft_app; [now apply tpl_tags|].
        apply IH; auto. cbn in *. lia.
      * constructor; auto. apply IH; auto. cbn in Hn. lia.
    + destruct (tags_apart _ Ht) as [Hd _].
      rewrite replaceDelimited_skip by (apply Hd; now left).
      constructor; auto. apply IH; auto.
      rewrite length_app in Hn.
      pose proof (fixedTags_nonempty _ Ht) as Hne.
      destruct t; [congruence|]. cbn in Hn. lia.
Qed.

Lemma oft_replaceDelimited s :
  OnlyFixedTags s -> OnlyFixedTags (replaceDelimited (d0 :: dr) tpl s).
Proof. now apply (oft_replaceDelimited_len (List.length s)). Qed.

End Delimited.


Lemma escapeChar_no_angle c :
  Forall (fun x => x <> lt /\ x <> gt) (escapeChar c).
Proof.
  unfold escapeChar.
  destruct (char_eqb c amp) eqn:Ea;
    [repeat constructor; discriminate|].
  destruct (char_eqb c lt) eqn:El;
    [repeat constructor; discriminate|].
  destruct (char_eqb c gt) eqn:Eg;
    [repeat constructor; discriminate|].
  apply char_eqb_neq in El, Eg. repeat constructor; assumption.
Qed.

(** The three replacements amount to one pass replacing each character
    by its entity: the ampersands of the entities are not escaped
    again. *)
Lemma escapeHtml_flat_map text :
  escapeHtml text = flat_map escapeChar text.
Proof.
  unfold escapeHtml. induction text as [|c text IH]; [reflexivity|].
  cbn [replaceChar flat_map]. rewrite !replaceChar_app, IH. f_equal.
  unfold escapeChar.
  destruct (char_eqb c amp) eqn:Ea; [reflexivity|].
  cbn [replaceChar app].
  destruct (char_eqb c lt) eqn:El; [reflexivity|].
  cbn [replaceChar app].
  destruct (char_eqb c gt) eqn:Eg; reflexivity.
Qed.

Lemma escapeHtml_no_angle text :
  Forall (fun x => x <> lt /\ x <> gt) (escapeHtml text).
Proof.
  rewrite escapeHtml_flat_map.
  induction text as [|c text IH]; cbn; [constructor|].
  apply Forall_app. split; [apply escapeChar_no_angle|assumption].
Qed.

Lemma oft_no_angle s :
  Forall (fun x => x <> lt /\ x <> gt) s -> OnlyFixedTags s.
Proof.
  induction 1 as [|c s [Hl Hg] _ IH]; constructor; assumption.
Qed.

Lemma apartb_spec d :
  apartb d = true ->
  forall t, In t fixedTags ->
    (forall c, In c d -> ~ In c t)
    /\ Forall (fun c => isLineTerminator c = false) t.
Proof.
  unfold apartb. rewrite forallb_forall. intros H t Ht.
  specialize (H t Ht). rewrite forallb_forall in H. split.
  - intros c Hc Hin. specialize (H c Hin).
    apply andb_true_iff in H. destruct H as [H _].
    apply negb_true_iff in H.
    assert (existsb (char_eqb c) d = true); [|congruence].
    apply existsb_exists. exists c. split; [assumption|apply char_eqb_refl].
  - apply Forall_forall. intros c Hin. specialize (H c Hin).
    apply andb_true_iff in H. destruct H as [_ H].
    now apply negb_true_iff in H.
Qed.

Lemma oft_boldTemplate g : OnlyFixedTags g -> OnlyFixedTags (boldTemplate g).
Proof.
  intros H. unfold boldTemplate. apply oft_tag; [cbn; auto|].
  apply oft_app; [assumption|].
  rewrite <- (app_nil_r boldClose). apply oft_tag; [cbn; auto|constructor].
Qed.

Lemma oft_codeTemplate g : OnlyFixedTags g -> OnlyFixedTags (codeTemplate g).
Proof.
  intros H. unfold codeTemplate. apply oft_tag; [cbn; auto 6|].
  apply oft_app; [assumption|].
  rewrite <- (app_nil_r codeClose). apply oft_tag; [cbn; auto 6|constructor].
Qed.

Lemma formatBold_only_fixed_tags text : OnlyFixedTags (formatBold text).
Proof.
  unfold formatBold.
  apply (oft_replaceDelimited 96 [] codeTemplate).
  - now apply apartb_spec.
  - apply oft_codeTemplate.
  - apply (oft_replaceDelimited 42 [42] boldTemplate).
    + now apply apartb_spec.
    + apply oft_boldTemplate.
    + apply oft_no_angle, escapeHtml_no_angle.
Qed.

Example formatBold_bold :
  formatBold (lit "**x**") = boldOpen ++ lit "x" ++ boldClose.
Proof. reflexivity. Qed.

Example formatBold_code :
  formatBold (lit "`y`") = codeOpen ++ lit "y" ++ codeClose.
Proof. reflexivity. Qed.

(** A marker left open is kept as text, and the entity of an ampersand
    is not unescaped by a later pass. *)
Example formatBold_unclosed :
  formatBold (lit "a **b & `c") = lit "a **b &amp; `c".
Proof. reflexivity. Qed.

End MarkdownFacts.

(** ** The image encoder *)

Module EncoderFacts.
Import Base64 Base64Facts JsFacts.

Lemma encode_no_comma bs : ~ In comma (encode bs).
Proof.
  induction bs as [|a|a b|a b c rest IH] using list_ind3; cbn [encode In].
  - tauto.
  - intros [H|[H|[H|[H|[]]]]];
      try (now apply enc6_not_comma in H); discriminate.
  - intros [H|[H|[H|[H|[]]]]];
      try (now apply enc6_not_comma in H); discriminate.
  - intros [H|[H|[H|[H|H]]]];
      try (now apply enc6_not_comma in H). now apply IH.
Qed.

Lemma dataURL_split mime bs :
  ~ In comma mime ->
  split comma (dataURL mime bs)
  = [lit "data:" ++ mime ++ lit ";base64"; encode bs].
Proof.
  intros Hm. unfold dataURL.
  change (lit ";base64,") with (lit ";base64" ++ [comma]).
  replace (lit "data:" ++ mime ++ (lit ";base64" ++ [comma]) ++ encode bs)
    with ((lit "data:" ++ mime ++ lit ";base64") ++ comma :: encode bs)
    by (now rewrite <- !app_assoc).
  rewrite split_app_sep.
  - now rewrite (split_no_sep _ _ (encode_no_comma bs)).
  - intros H. apply in_app_or in H. destruct H as [H|H].
    + cbn in H. unfold comma in H. intuition discriminate.
    + apply in_app_or in H. destruct H as [H|H]; [auto|].
      cbn in H. unfold comma in H. intuition discriminate.
Qed.

(** Reading a file whose MIME type has no comma resolves with the
    Base64 text of its bytes. *)
Lemma mediaType_no_comma file :
  ~ In comma (file_type file) -> ~ In comma (mediaType file).
Proof.
  intros Hm. unfold mediaType. destruct (truthy (file_type file)); [exact Hm|].
  cbn. unfold comma. intuition discriminate.
Qed.

Lemma fileToGenerativePart_resolves file :
  ~ In comma (file_type file) ->
  fileToGenerativePart true file
  = Resolved {| data := Some (encode (file_bytes file));
                mimeType := file_type file |}.
Proof.
  intros Hm. unfold fileToGenerativePart, readAsDataURL.
  now rewrite dataURL_split by now apply mediaType_no_comma.
Qed.

(** Fetching the data URL of some bytes gives the bytes back. *)
Lemma fetchDataURL_dataURL mime bs :
  ~ In comma mime -> Sample.fetchDataURL (dataURL mime bs) = Some bs.
Proof.
  intros Hm. unfold Sample.fetchDataURL. rewrite dataURL_split by assumption.
  apply decode_encode.
Qed.

Lemma JPEG_no_comma : ~ In comma JPEG.
Proof. cbn. unfold comma. intuition discriminate. Qed.

End EncoderFacts.

(** C8. For every blob whose MIME type is free of commas (as the type
    of every image is), the [data] field [fileToGenerativePart]
    resolves with decodes, as Base64, to exactly the bytes of the blob,
    and the [mimeType] field is the MIME type of the blob. *)
Theorem fileToGenerativePart_round_trip (file : File) :
  ~ In comma (file_type file) ->
  exists payload,
    fileToGenerativePart true file
    = Resolved {| data := Some payload; mimeType := file_type file |}
    /\ Base64.decode payload = Some (file_bytes file).
Proof.
  intros Hm. exists (Base64.encode (file_bytes file)). split.
  - now apply EncoderFacts.fileToGenerativePart_resolves.
  - apply Base64Facts.decode_encode.
Qed.

Lemma fileToGenerativePart_round_trip_witness :
  ~ In comma (file_type Sample.pngFile)
  /\ exists payload,
       fileToGenerativePart true Sample.pngFile
       = Resolved {| data := Some payload; mimeType := lit "image/png" |}
       /\ Base64.decode payload = Some Sample.pngBytes.
Proof.
  assert (H : ~ In comma (file_type Sample.pngFile)).
  { cbn. unfold comma. intuition discriminate. }
  split; [exact H|].
  exact (fileToGenerativePart_round_trip Sample.pngFile H).
Defined.

(** ** The inline formatter *)

Module RenderFacts.
Import Markdown JsFacts MarkdownFacts.

Lemma plainChar_spec c :
  plainChar c = true ->
  c <> amp /\ c <> lt /\ c <> gt /\ c <> 42 /\ c <> 96.
Proof.
  unfold plainChar. intros H. apply negb_true_iff in H.
  repeat (apply orb_false_iff in H; destruct H as [H ?]).
  repeat split; now apply char_eqb_neq.
Qed.

Lemma plainText_notin s c :
  plainText s = true -> plainChar c = false -> ~ In c s.
Proof.
  unfold plainText. rewrite forallb_forall. intros H Hc Hin.
  specialize (H c Hin). congruence.
Qed.

Lemma plainText_app a b :
  plainText (a ++ b) = plainText a && plainText b.
Proof. apply forallb_app. Qed.

Lemma escapeChar_plain c : plainChar c = true -> escapeChar c = [c].
Proof.
  intros H. destruct (plainChar_spec c H) as (Ha & Hl & Hg & _).
  unfold escapeChar.
  apply char_eqb_neq in Ha, Hl, Hg. now rewrite Ha, Hl, Hg.
Qed.

Lemma escapeHtml_app a b : escapeHtml (a ++ b) = escapeHtml a ++ escapeHtml b.
Proof. rewrite !escapeHtml_flat_map. apply flat_map_app. Qed.

Lemma escapeHtml_plain s : plainText s = true -> escapeHtml s = s.
Proof.
  rewrite escapeHtml_flat_map. unfold plainText.
  induction s as [|c s IH]; cbn; [reflexivity|].
  intros H. apply andb_true_iff in H. destruct H as [Hc Hs].
  now rewrite (escapeChar_plain c Hc), IH.
Qed.

(** A pass copies a text without the first character of its
    delimiter. *)
Lemma replaceDelimited_absent d0 dr tpl s :
  ~ In d0 s -> replaceDelimited (d0 :: dr) tpl s = s.
Proof.
  intros H. rewrite <- (app_nil_r s) at 1.
  rewrite replaceDelimited_skip by assumption.
  now rewrite app_nil_r.
Qed.

Lemma oneLine_Forall s :
  oneLine s = true -> Forall (fun c => isLineTerminator c = false) s.
Proof.
  unfold oneLine. rewrite forallb_forall, Forall_forall.
  intros H c Hc. now apply negb_true_iff, H.
Qed.

Lemma lazyUntil_found d s rest :
  stripPrefix d s = Some rest -> lazyUntil d s = Some ([], rest).
Proof. intros H. destruct s; cbn [lazyUntil]; now rewrite H. Qed.

(** A delimited group at the head of the text is matched when the
    group is free of the first delimiter character and of line
    terminators. *)
Lemma matchAt_group d0 dr g rest :
  ~ In d0 g -> oneLine g = true ->
  matchAt (d0 :: dr) ((d0 :: dr) ++ g ++ (d0 :: dr) ++ rest) = Some (g, rest).
Proof.
  intros Hg Hl. unfold matchAt. rewrite stripPrefix_app.
  rewrite lazyUntil_skip by auto using oneLine_Forall.
  replace (lazyUntil (d0 :: dr) ((d0 :: dr) ++ rest)) with (Some (@nil char16, rest)).
  - now rewrite app_nil_r.
  - rewrite lazyUntil_found with (rest := rest); [reflexivity|].
    apply stripPrefix_app.
Qed.

Lemma replaceDelimited_group d0 dr tpl g rest :
  ~ In d0 g -> oneLine g = true ->
  replaceDelimited (d0 :: dr) tpl ((d0 :: dr) ++ g ++ (d0 :: dr) ++ rest)
  = tpl g ++ replaceDelimited (d0 :: dr) tpl rest.
Proof.
  intros Hg Hl. cbn [app]. rewrite replaceDelimited_cons.
  change (d0 :: dr ++ g ++ d0 :: dr ++ rest)
    with ((d0 :: dr) ++ g ++ (d0 :: dr) ++ rest).
  now rewrite matchAt_group.
Qed.

Lemma star_not_plain : plainChar 42 = false.
Proof. reflexivity. Qed.

Lemma backtick_not_plain : plainChar 96 = false.
Proof. reflexivity. Qed.

Lemma tags_without_backtick :
  ~ In 96 boldOpen /\ ~ In 96 boldClose.
Proof. split; cbn; intuition discriminate. Qed.

Lemma formatBold_plain text : plainText text = true -> formatBold text = text.
Proof.
  intros H. unfold formatBold. rewrite (escapeHtml_plain _ H).
  change (lit "**") with [42; 42]. change (lit "`") with [96].
  rewrite (replaceDelimited_absent 42 [42])
    by exact (plainText_notin _ _ H star_not_plain).
  apply replaceDelimited_absent.
  exact (plainText_notin _ _ H backtick_not_plain).
Qed.

Lemma bold_span_wrapped a g b :
  plainText a = true -> plainText g = true -> oneLine g = true ->
  formatBold (a ++ lit "**" ++ g ++ lit "**" ++ b)
  = a ++ boldOpen ++ g ++ boldClose ++ formatBold b.
Proof.
  intros Ha Hg Hl. unfold formatBold.
  rewrite !escapeHtml_app, (escapeHtml_plain _ Ha), (escapeHtml_plain _ Hg).
  change (escapeHtml (lit "**")) with [42; 42].
  change (lit "**") with [42; 42]. change (lit "`") with [96].
  rewrite (replaceDelimited_skip 42 [42])
    by exact (plainText_notin _ _ Ha star_not_plain).
  rewrite (replaceDelimited_group 42 [42])
    by (auto; exact (plainText_notin _ _ Hg star_not_plain)).
  unfold boldTemplate.
  rewrite (replaceDelimited_skip 96 [] _ a)
    by exact (plainText_notin _ _ Ha backtick_not_plain).
  rewrite (replaceDelimited_skip 96 [] _ (boldOpen ++ g ++ boldClose)).
  - now rewrite <- !app_assoc.
  - intros Hin. apply in_app_or in Hin. destruct Hin as [Hin|Hin].
    + exact (proj1 tags_without_backtick Hin).
    + apply in_app_or in Hin. destruct Hin as [Hin|Hin].
      * exact (plainText_notin _ _ Hg backtick_not_plain Hin).
      * exact (proj2 tags_without_backtick Hin).
Qed.

Lemma code_span_wrapped a g b :
  plainText a = true -> plainText g = true -> oneLine g = true ->
  formatBold (a ++ lit "`" ++ g ++ lit "`" ++ b)
  = a ++ codeOpen ++ g ++ codeClose ++ formatBold b.
Proof.
  intros Ha Hg Hl. unfold formatBold.
  rewrite !escapeHtml_app, (escapeHtml_plain _ Ha), (escapeHtml_plain _ Hg).
  change (escapeHtml (lit "`")) with [96].
  change (lit "**") with [42; 42]. change (lit "`") with [96].
  assert (H96 : ~ In 42 [96]) by (cbn; intuition discriminate).
  rewrite (replaceDelimited_skip 42 [42] _ a)
    by exact (plainText_notin _ _ Ha star_not_plain).
  rewrite (replaceDelimited_skip 42 [42] _ [96]) by exact H96.
  rewrite (replaceDelimited_skip 42 [42] _ g)
    by exact (plainText_notin _ _ Hg star_not_plain).
  rewrite (replaceDelimited_skip 42 [42] _ [96]) by exact H96.
  rewrite (replaceDelimited_skip 96 [] _ a)
    by exact (plainText_notin _ _ Ha backtick_not_plain).
  rewrite (replaceDelimited_group 96 [])
    by (auto; exact (plainText_notin _ _ Hg backtick_not_plain)).
  unfold codeTemplate. now rewrite <- !app_assoc.
Qed.

(** Escaping brings no marker character into a text and keeps it on
    one line. *)
Lemma markerFree_notin s :
  markerFree s = true -> ~ In 42 s /\ ~ In 96 s.
Proof.
  unfold markerFree. rewrite forallb_forall. intros H.
  split; intros Hin; specialize (H _ Hin); discriminate.
Qed.

Lemma escapeChar_marker c x :
  c = 42 \/ c = 96 -> In c (escapeChar x) -> c = x.
Proof.
  intros Hc. unfold escapeChar.
  destruct (char_eqb x amp); [|destruct (char_eqb x lt);
                               [|destruct (char_eqb x gt)]];
    cbn; intros H; destruct Hc; subst c;
    repeat (destruct H as [H|H]; try discriminate; try contradiction);
    now symmetry.
Qed.

Lemma escapeHtml_marker c s :
  c = 42 \/ c = 96 -> ~ In c s -> ~ In c (escapeHtml s).
Proof.
  intros Hc H Hin. rewrite escapeHtml_flat_map in Hin.
  apply in_flat_map in Hin. destruct Hin as (x & Hx & Hcx).
  apply (escapeChar_marker c x Hc) in Hcx. subst x. now apply H.
Qed.

Lemma escapeChar_oneLine x :
  isLineTerminator x = false -> oneLine (escapeChar x) = true.
Proof.
  intros H. unfold escapeChar.
  destruct (char_eqb x amp); [reflexivity|].
  destruct (char_eqb x lt); [reflexivity|].
  destruct (char_eqb x gt); [reflexivity|].
  cbn. now rewrite H.
Qed.

Lemma escapeHtml_oneLine s :
  oneLine s = true -> oneLine (escapeHtml s) = true.
Proof.
  rewrite escapeHtml_flat_map. unfold oneLine.
  induction s as [|c s IH]; cbn; [reflexivity|].
  intros H. apply andb_true_iff in H. destruct H as [Hc Hs].
  rewrite forallb_app. apply andb_true_iff. split; [|now apply IH].
  apply escapeChar_oneLine. now apply negb_true_iff.
Qed.

(** A bold group between marker-free texts: the text before it and
    the group are escaped, the group is wrapped, and formatting goes on
    behind it. *)
Lemma bold_span_escaped a g b :
  markerFree a = true -> markerFree g = true -> oneLine g = true ->
  formatBold (a ++ lit "**" ++ g ++ lit "**" ++ b)
  = escapeHtml a ++ boldOpen ++ escapeHtml g ++ boldClose ++ formatBold b.
Proof.
  intros Ha Hg Hl.
  destruct (markerFree_notin a Ha) as [Ha42 Ha96].
  destruct (markerFree_notin g Hg) as [Hg42 Hg96].
  pose proof (escapeHtml_marker 42 a (or_introl eq_refl) Ha42) as Ea42.
  pose proof (escapeHtml_marker 96 a (or_intror eq_refl) Ha96) as Ea96.
  pose proof (escapeHtml_marker 42 g (or_introl eq_refl) Hg42) as Eg42.
  pose proof (escapeHtml_marker 96 g (or_intror eq_refl) Hg96) as Eg96.
  pose proof (escapeHtml_oneLine g Hl) as El.
  unfold formatBold. rewrite !escapeHtml_app.
  change (escapeHtml (lit "**")) with [42; 42].
  change (lit "**") with [42; 42]. change (lit "`") with [96].
  rewrite (replaceDelimited_skip 42 [42] _ (escapeHtml a)) by exact Ea42.
  rewrite (replaceDelimited_group 42 [42]) by assumption.
  unfold boldTemplate.
  rewrite (replaceDelimited_skip 96 [] _ (escapeHtml a)) by exact Ea96.
  rewrite (replaceDelimited_skip 96 [] _
             (boldOpen ++ escapeHtml g ++ boldClose)).
  - now rewrite <- !app_assoc.
  - intros Hin. apply in_app_or in Hin. destruct Hin as [Hin|Hin].
    + exact (proj1 tags_without_backtick Hin).
    + apply in_app_or in Hin. destruct Hin as [Hin|Hin].
      * exact (Eg96 Hin).
      * exact (proj2 tags_without_backtick Hin).
Qed.

(** The same for a code group. *)
Lemma code_span_escaped a g b :
  markerFree a = true -> markerFree g = true -> oneLine g = true ->
  formatBold (a ++ lit "`" ++ g ++ lit "`" ++ b)
  = escapeHtml a ++ codeOpen ++ escapeHtml g ++ codeClose ++ formatBold b.
Proof.
  intros Ha Hg Hl.
  destruct (markerFree_notin a Ha) as [Ha42 Ha96].
  destruct (markerFree_notin g Hg) as [Hg42 Hg96].
  pose proof (escapeHtml_marker 42 a (or_introl eq_refl) Ha42) as Ea42.
  pose proof (escapeHtml_marker 96 a (or_intror eq_refl) Ha96) as Ea96.
  pose proof (escapeHtml_marker 42 g (or_introl eq_refl) Hg42) as Eg42.
  pose proof (escapeHtml_marker 96 g (or_intror eq_refl) Hg96) as Eg96.
  pose proof (escapeHtml_oneLine g Hl) as El.
  unfold formatBold. rewrite !escapeHtml_app.
  change (escapeHtml (lit "`")) with [96].
  change (lit "**") with [42; 42]. change (lit "`") with [96].
  assert (H96 : ~ In 42 [96]) by (cbn; intuition discriminate).
  rewrite (replaceDelimited_skip 42 [42] _ (escapeHtml a)) by exact Ea42.
  rewrite (replaceDelimited_skip 42 [42] _ [96]) by exact H96.
  rewrite (replaceDelimited_skip 42 [42] _ (escapeHtml g)) by exact Eg42.
  rewrite (replaceDelimited_skip 42 [42] _ [96]) by exact H96.
  rewrite (replaceDelimited_skip 96 [] _ (escapeHtml a)) by exact Ea96.
  rewrite (replaceDelimited_group 96 []) by assumption.
  unfold codeTemplate. now rewrite <- !app_assoc.
Qed.

End RenderFacts.

(** C4. [formatBold] first replaces every [&], [<] and [>] by its
    entity, so that the escaped text holds no angle bracket, and only
    then rewrites the bold and code markers; whatever the input, every
    angle bracket of the result belongs to one of the four fixed tags.
    The line [<b> **ok** </b>] becomes a paragraph with the literal
    text of the tags and a bold [ok].  A group on one line between two
    bold markers, or between two backticks, that follows a text without
    marker characters comes out escaped and wrapped in the bold tag, or
    in the code tag, behind the escaped text and before the formatted
    rest; so does the code group of the line with [a<b] between
    backticks. *)
Theorem formatBold_escapes_before_markup :
  (forall text,
     Markdown.escapeHtml text = flat_map Markdown.escapeChar text
     /\ Forall (fun c => c <> Markdown.lt /\ c <> Markdown.gt)
          (Markdown.escapeHtml text))
  /\ (forall text,
        Markdown.formatBold text
        = Markdown.replaceDelimited (lit "`") Markdown.codeTemplate
            (Markdown.replaceDelimited (lit "**") Markdown.boldTemplate
               (Markdown.escapeHtml text)))
  /\ (forall text, Markdown.OnlyFixedTags (Markdown.formatBold text))
  /\ Markdown.formatBold (lit "<b> **ok** </b>")
     = lit "&lt;b&gt; " ++ Markdown.boldOpen ++ lit "ok"
         ++ Markdown.boldClose ++ lit " &lt;/b&gt;"
  /\ Markdown.renderLine (lit "<b> **ok** </b>")
     = Markdown.Paragraph (Markdown.formatBold (lit "<b> **ok** </b>"))
  /\ (forall a g b,
        markerFree a = true -> markerFree g = true -> oneLine g = true ->
        Markdown.formatBold (a ++ lit "**" ++ g ++ lit "**" ++ b)
        = Markdown.escapeHtml a ++ Markdown.boldOpen
            ++ Markdown.escapeHtml g ++ Markdown.boldClose
            ++ Markdown.formatBold b)
  /\ (forall a g b,
        markerFree a = true -> markerFree g = true -> oneLine g = true ->
        Markdown.formatBold (a ++ lit "`" ++ g ++ lit "`" ++ b)
        = Markdown.escapeHtml a ++ Markdown.codeOpen
            ++ Markdown.escapeHtml g ++ Markdown.codeClose
            ++ Markdown.formatBold b)
  /\ Markdown.formatBold (lit "<i> `a<b` </i>")
     = lit "&lt;i&gt; " ++ Markdown.codeOpen ++ lit "a&lt;b"
         ++ Markdown.codeClose ++ lit " &lt;/i&gt;".
Proof.
  split; [intros text; split|].
  - apply MarkdownFacts.escapeHtml_flat_map.
  - apply MarkdownFacts.escapeHtml_no_angle.
  - split; [reflexivity|].
    split; [apply MarkdownFacts.formatBold_only_fixed_tags|].
    split; [reflexivity|]. split; [reflexivity|].
    split; [exact RenderFacts.bold_span_escaped|].
    split; [exact RenderFacts.code_span_escaped|].
    reflexivity.
Qed.

Lemma formatBold_escapes_before_markup_witness :
  markerFree (lit "<i> ") = true
  /\ markerFree (lit "a<b") = true
  /\ oneLine (lit "a<b") = true
  /\ Markdown.formatBold
       (lit "<i> " ++ lit "`" ++ lit "a<b" ++ lit "`" ++ lit " </i>")
     = lit "&lt;i&gt; " ++ Markdown.codeOpen ++ lit "a&lt;b"
         ++ Markdown.codeClose ++ lit " &lt;/i&gt;".
Proof.
  split; [reflexivity|]. split; [reflexivity|]. split; [reflexivity|].
  destruct formatBold_escapes_before_markup
    as (_ & _ & _ & _ & _ & _ & Hcode & _).
  rewrite (Hcode (lit "<i> ") (lit "a<b") (lit " </i>")
             eq_refl eq_refl eq_refl).
  reflexivity.
Defined.

(** ** The rasterizer *)

Module RasterFacts.

Local Open Scope Z_scope.

(** The integer part of a number is its ceiling or one below it, and
    its ceiling when the number is whole. *)
Lemma truncate_ceiling x z :
  truncate x = Some z ->
  exists c,
    ceiling x = Some c /\ c - 1 <= z <= c /\ (isWhole x = true -> z = c).
Proof.
  unfold truncate, ceiling, isWhole.
  destruct (FloatOps.Prim2SF x) as [sg| | |sg m e]; try discriminate;
    intros H; inversion H; subst z.
  - exists 0. repeat split; lia.
  - destruct sg.
    + exists (- magnitude m e). repeat split; lia.
    + destruct (wholeMagnitude m e).
      * exists (magnitude m e). repeat split; lia.
      * exists (magnitude m e + 1).
        split; [reflexivity|]. split; [lia|]. discriminate.
Qed.

(** In range, a canvas dimension is the integer part of the assigned
    number. *)
Lemma canvasDimension_truncate default x z :
  truncate x = Some z -> 0 <= z < 2 ^ 31 ->
  canvasDimension default x = z.
Proof.
  intros Hx Hz. unfold canvasDimension, toUnsignedLong. rewrite Hx.
  rewrite Z.mod_small by lia.
  destruct (z <=? 2147483647) eqn:E; [reflexivity|].
  apply Z.leb_gt in E. lia.
Qed.

(** Doubles at work: the displayed width 281 of a 1200 pixel wide
    image gives the scale 1200/281, and 281 times that scale falls
    just below 1200. *)
Example canvas_of_inexact_product :
  canvasDimension 300 (281 * (1200 / 281) * 1)%float = 1199.
Proof. reflexivity. Qed.

Example canvas_of_fraction :
  canvasDimension 300 (100.5 * 1 * 1)%float = 100
  /\ ceiling (100.5 * 1 * 1)%float = Some 101.
Proof. split; reflexivity. Qed.

(** Out of range: a negative number wraps beyond the limit and the
    default is taken; NaN and the infinities give 0. *)
Example canvas_out_of_range :
  canvasDimension 300 (-1)%float = 300
  /\ canvasDimension 300 (0 / 0)%float = 0
  /\ canvasDimension 150 (1 / 0)%float = 0.
Proof. repeat split. Qed.

End RasterFacts.

(** C6. The canvas [getCroppedImg] sets up for a confirmed crop has, as
    width and height, the integer parts of the products
    cropWidth * scaleX * pixelRatio and cropHeight * scaleY * pixelRatio
    as the doubles compute them, whenever these are in the range of a
    canvas dimension.  Each is therefore the ceiling of its product or
    one pixel below it, and exactly the ceiling when the product is a
    whole number.  The crop (100,100,400,300) of the 1200 by 800 image
    displayed at 600 by 400 (both scales 2) at density 1 gives a
    canvas of 800 by 600.  A product that is NaN or infinite, as with
    an image displayed at width 0, gives the dimension 0. *)
Theorem canvas_size_is_scaled_crop (P : Platform) :
  (forall (image : HTMLImageElement) (cc : PixelCrop) (w h : Z),
     let pw := (pxc_width cc * scaleX image * devicePixelRatio P)%float in
     let ph := (pxc_height cc * scaleY image * devicePixelRatio P)%float in
     let canvas := croppedCanvas P image cc in
     truncate pw = Some w -> truncate ph = Some h ->
     (0 <= w < 2 ^ 31)%Z -> (0 <= h < 2 ^ 31)%Z ->
     canvas_width canvas = w /\ canvas_height canvas = h
     /\ (exists cw,
          ceiling pw = Some cw
          /\ (cw - 1 <= canvas_width canvas <= cw)%Z
          /\ (isWhole pw = true -> canvas_width canvas = cw))
     /\ (exists ch,
          ceiling ph = Some ch
          /\ (ch - 1 <= canvas_height canvas <= ch)%Z
          /\ (isWhole ph = true -> canvas_height canvas = ch)))
  /\ (devicePixelRatio P = 1%float ->
      scaleX Sample.image1200 = 2%float /\ scaleY Sample.image1200 = 2%float
      /\ canvas_width (croppedCanvas P Sample.image1200 Sample.crop400)
         = 800%Z
      /\ canvas_height (croppedCanvas P Sample.image1200 Sample.crop400)
         = 600%Z)
  /\ (forall (image : HTMLImageElement) (cc : PixelCrop),
        (truncate (pxc_width cc * scaleX image * devicePixelRatio P)%float
         = None ->
         canvas_width (croppedCanvas P image cc) = 0%Z)
        /\ (truncate (pxc_height cc * scaleY image * devicePixelRatio P)%float
            = None ->
            canvas_height (croppedCanvas P image cc) = 0%Z)).
Proof.
  split; [|split].
  - intros image cc w h pw ph canvas Hw Hh Rw Rh.
    assert (Ew : canvas_width canvas = w)
      by exact (RasterFacts.canvasDimension_truncate 300 pw w Hw Rw).
    assert (Eh : canvas_height canvas = h)
      by exact (RasterFacts.canvasDimension_truncate 150 ph h Hh Rh).
    split; [exact Ew|]. split; [exact Eh|]. rewrite Ew, Eh. split.
    + exact (RasterFacts.truncate_ceiling pw w Hw).
    + exact (RasterFacts.truncate_ceiling ph h Hh).
  - intros H1. unfold croppedCanvas. cbn [canvas_width canvas_height].
    rewrite H1. repeat split.
  - intros image cc.
    split; intros H; unfold croppedCanvas;
      cbn [canvas_width canvas_height];
      unfold canvasDimension, toUnsignedLong; now rewrite H.
Qed.

Lemma canvas_size_is_scaled_crop_witness :
  devicePixelRatio Sample.platform = 1%float
  /\ truncate (pxc_width Sample.crop400 * scaleX Sample.image1200
               * devicePixelRatio Sample.platform)%float = Some 800%Z
  /\ canvas_width
       (croppedCanvas Sample.platform Sample.image1200 Sample.crop400)
     = 800%Z
  /\ canvas_height
       (croppedCanvas Sample.platform Sample.image1200 Sample.crop400)
     = 600%Z.
Proof.
  split; [reflexivity|]. split; [reflexivity|].
  destruct (canvas_size_is_scaled_crop Sample.platform) as [Hgen _].
  assert (Rw : (0 <= 800 < 2 ^ 31)%Z) by (split; lia).
  assert (Rh : (0 <= 600 < 2 ^ 31)%Z) by (split; lia).
  destruct (Hgen Sample.image1200 Sample.crop400 800%Z 600%Z
              eq_refl eq_refl Rw Rh) as (Hw & Hh & _).
  split; assumption.
Defined.

(** ** The crop flow *)

Module CropFacts.
Import EncoderFacts.

(** [processFinalImage] changes nothing or selects an image that has
    the MIME type of the file. *)
Lemma processFinalImage_shape P file s :
  fst (processFinalImage P file s) = s
  \/ exists img,
       fst (processFinalImage P file s) = setSelectedImage (Some img) s
       /\ sel_mimeType img = file_type file.
Proof.
  unfold processFinalImage, fileToGenerativePart.
  destruct (readAsDataURL (readable P file) file); cbn; eauto.
Qed.

Lemma processFinalImage_readable P file s :
  readable P file = true -> ~ In comma (file_type file) ->
  processFinalImage P file s
  = (setSelectedImage
       (Some {| base64 := Some (Base64.encode (file_bytes file));
                sel_mimeType := file_type file;
                preview := createObjectURL P file |}) s, []).
Proof.
  intros Hr Hm. unfold processFinalImage.
  now rewrite Hr, fileToGenerativePart_resolves.
Qed.

(** The outcomes of [getCroppedImg]: nothing happens, or a JPEG file
    is processed and the dialog closed, on the crop path with the
    source dropped. *)
Lemma getCroppedImg_shape P imgRef s :
  fst (getCroppedImg P imgRef s) = s
  \/ exists file,
       file_type file = JPEG
       /\ (fst (getCroppedImg P imgRef s)
           = setCropImageSrc None
               (setIsCropping false (fst (processFinalImage P file s)))
           \/ fst (getCroppedImg P imgRef s)
              = setIsCropping false (fst (processFinalImage P file s))).
Proof.
  unfold getCroppedImg.
  destruct imgRef as [image|], (completedCrop s) as [cc|],
    (truthy_opt (cropImageSrc s)) eqn:Et;
    repeat match goal with
    | |- context [ match ?x with _ => _ end ] =>
        lazymatch x with
        | processFinalImage _ _ _ => fail
        | _ => destruct x eqn:?
        end
    end; cbn [fst]; auto;
    match goal with
    | |- context [ processFinalImage ?P ?f ?s ] =>
        right; exists f; split; [reflexivity|];
        destruct (processFinalImage P f s) as [s1 eff]; cbn [fst]; auto
    end.
Qed.

(** The two files [getCroppedImg] builds are JPEG files, so an image it
    selects is a JPEG image. *)
Lemma getCroppedImg_selected P imgRef s :
  selectedImage (fst (getCroppedImg P imgRef s)) = selectedImage s
  \/ exists img,
       selectedImage (fst (getCroppedImg P imgRef s)) = Some img
       /\ sel_mimeType img = JPEG.
Proof.
  destruct (getCroppedImg_shape P imgRef s) as [->|[file [Hj [->| ->]]]];
    auto;
    destruct (processFinalImage_shape P file s) as [->|[img [-> Hm]]];
    cbn [selectedImage setCropImageSrc setIsCropping setSelectedImage]; auto;
    right; exists img; (split; [reflexivity|now rewrite Hm]).
Qed.

Lemma getCroppedImg_messages P imgRef s :
  messages (fst (getCroppedImg P imgRef s)) = messages s.
Proof.
  destruct (getCroppedImg_shape P imgRef s) as [->|[file [Hj [->| ->]]]];
    auto;
    now destruct (processFinalImage_shape P file s) as [->|[img [-> Hm]]].
Qed.

Lemma getCroppedImg_loadingState P imgRef s :
  loadingState (fst (getCroppedImg P imgRef s)) = loadingState s.
Proof.
  destruct (getCroppedImg_shape P imgRef s) as [->|[file [Hj [->| ->]]]];
    auto;
    now destruct (processFinalImage_shape P file s) as [->|[img [-> Hm]]].
Qed.

(** The crop path on the sample platform: the bytes of the canvas are
    selected, the dialog is closed and the source dropped. *)
Example cropped_selects_canvas :
  selectedImage Sample.cropped
  = Some {| base64 := Some (Base64.encode Sample.jpegBytes);
            sel_mimeType := lit "image/jpeg";
            preview := lit "blob:preview" |}
  /\ isCropping Sample.cropped = false
  /\ cropImageSrc Sample.cropped = None.
Proof. repeat split. Qed.

(** The fallback path on the sample platform keeps the source. *)
Example accepted_selects_original :
  selectedImage Sample.accepted
  = Some {| base64 := Some (Base64.encode Sample.pngBytes);
            sel_mimeType := lit "image/jpeg";
            preview := lit "blob:preview" |}
  /\ isCropping Sample.accepted = false
  /\ cropImageSrc Sample.accepted = cropImageSrc Sample.picked.
Proof. repeat split. Qed.

End CropFacts.

(** C7. When Done is pressed with no confirmed crop while an original
    image is loaded in the crop dialog, [getCroppedImg] selects that
    image with its bytes unchanged (the selected payload decodes to
    exactly the bytes behind [cropImageSrc]), closes the dialog, and
    reports nothing: no alert and no console error. *)
Theorem getCroppedImg_without_crop_uses_original
    (P : Platform) (imgRef : option HTMLImageElement) (s : State)
    (src : jsstring) (blob : list Byte.byte) :
  completedCrop s = None ->
  cropImageSrc s = Some src ->
  truthy src = true ->
  fetchBlob P src = Some blob ->
  readable P (mkFile blob (lit "image.jpg") JPEG) = true ->
  exists payload,
    getCroppedImg P imgRef s
    = (setIsCropping false
         (setSelectedImage
            (Some {| base64 := Some payload;
                     sel_mimeType := lit "image/jpeg";
                     preview :=
                       createObjectURL P (mkFile blob (lit "image.jpg") JPEG) |})
            s),
       [])
    /\ Base64.decode payload = Some blob.
Proof.
  intros Hc Hsrc Ht Hf Hr. exists (Base64.encode blob). split.
  - unfold getCroppedImg. rewrite Hc, Hsrc, Ht, Hf.
    rewrite CropFacts.processFinalImage_readable;
      [|exact Hr|exact EncoderFacts.JPEG_no_comma].
    now destruct imgRef.
  - apply Base64Facts.decode_encode.
Qed.

Lemma getCroppedImg_without_crop_uses_original_witness :
  completedCrop Sample.picked = None
  /\ exists payload,
       selectedImage (fst (getCroppedImg Sample.platform None Sample.picked))
       = Some {| base64 := Some payload;
                 sel_mimeType := lit "image/jpeg";
                 preview := lit "blob:preview" |}
       /\ snd (getCroppedImg Sample.platform None Sample.picked) = []
       /\ Base64.decode payload = Some Sample.pngBytes.
Proof.
  split; [reflexivity|].
  destruct (getCroppedImg_without_crop_uses_original
              Sample.platform None Sample.picked
              (dataURL (lit "image/png") Sample.pngBytes) Sample.pngBytes
              eq_refl eq_refl eq_refl eq_refl eq_refl)
    as [payload [Hrun Hdec]].
  exists payload. rewrite Hrun. repeat split. exact Hdec.
Defined.

(** ** The chat *)

Module ChatFacts.
Import CropFacts.

(** The selected image of a reachable state came from the crop flow. *)
Lemma selected_is_jpeg P s :
  Reachable P s ->
  forall img, selectedImage s = Some img -> sel_mimeType img = JPEG.
Proof.
  induction 1 as [now|s e Hs IH]; intros img Himg.
  - discriminate.
  - destruct e; cbn in Himg; try (now apply IH); try discriminate.
    + destruct (getCroppedImg_selected P imgRef s) as [Heq|[img' [Heq Hj]]].
      * rewrite Heq in Himg. now apply IH.
      * rewrite Heq in Himg. now inversion Himg; subst.
    + unfold handleSendMessage_begin in Himg.
      destruct (sendRejected s); cbn in Himg; [now apply IH|discriminate].
    + destruct o; cbn in Himg; now apply IH.
Qed.

(** The first message of a reachable state is the welcome message. *)
Lemma messages_start_with_welcome P s :
  Reachable P s ->
  exists now rest, messages s = welcome now :: rest.
Proof.
  induction 1 as [now|s e Hs (now & rest & IH)].
  - now exists now, [].
  - destruct e; cbn; try (now exists now, rest).
    + rewrite getCroppedImg_messages. now exists now, rest.
    + unfold handleSendMessage_begin.
      destruct (sendRejected s); cbn; rewrite IH; cbn; eauto.
    + destruct o; cbn; rewrite IH; cbn; eauto.
    + rewrite IH. cbn. eauto.
Qed.

(** The loading states [uploading] and [streaming] are never entered. *)
Lemma loading_idle_or_thinking P s :
  Reachable P s -> loadingState s = idle \/ loadingState s = thinking.
Proof.
  induction 1 as [now|s e Hs IH]; [now left|].
  destruct e; cbn; auto.
  - now rewrite getCroppedImg_loadingState.
  - unfold handleSendMessage_begin. destruct (sendRejected s); cbn; auto.
  - destruct o; cbn; auto.
Qed.

Lemma messages_never_empty P s : Reachable P s -> messages s <> [].
Proof.
  intros H. destruct (messages_start_with_welcome P s H) as (now & rest & E).
  now rewrite E.
Qed.

Lemma handleSendMessage_begin_rejected id now s :
  sendRejected s = true -> handleSendMessage_begin id now s = (s, None).
Proof. unfold handleSendMessage_begin. now intros ->. Qed.

Lemma handleSendMessage_begin_accepted id now s :
  sendRejected s = false ->
  handleSendMessage_begin id now s
  = (setLoadingState thinking
       (clearImage
          (setInputText []
             (setMessages (fun prev => prev ++ [userMessageOf id now s]) s))),
     Some (requestOf s)).
Proof. unfold handleSendMessage_begin. now intros ->. Qed.

(** A run that passes the guard is one call of [solveHomework]. *)
Lemma handleSendMessage_calls_solveHomework E s :
  sendRejected s = false ->
  handleSendMessage E s
  = let (effects, r) :=
      solveHomework (ai E) (inputText s) (currentBase64 (selectedImage s))
        (currentMimeType (selectedImage s)) (Language_string (language s)) in
    (handleSendMessage_resume (replyId E) (replyNow E) r
       (fst (handleSendMessage_begin (userMessageId E) (userNow E) s)),
     effects).
Proof.
  intros Hg. unfold handleSendMessage, solveHomework.
  rewrite handleSendMessage_begin_accepted by assumption.
  fold (requestOf s). now destruct (solveHomework_settle (ai E (requestOf s))).
Qed.

Lemma busy_rejected s : loadingState s <> idle -> sendRejected s = true.
Proof.
  intros H. unfold sendRejected.
  destruct (loadingState s); try congruence; cbn; apply orb_true_r.
Qed.

Lemma inline_part_of_request prompt b m l d mt :
  In (InlineDataPart d mt) (req_parts (solveHomework_request prompt b m l)) ->
  m = Some mt.
Proof.
  cbn. unfold solveHomework_parts. intros H. apply in_app_or in H.
  destruct H as [H|H].
  - destruct b as [b|], m as [m|]; try contradiction.
    destruct (truthy b && truthy m); [|contradiction].
    destruct H as [H|[]]. now inversion H.
  - destruct H as [H|[]]. discriminate.
Qed.

End ChatFacts.

Module EffectFacts.

Lemma processFinalImage_no_call P file s req :
  ~ In (GenerateContent req) (snd (processFinalImage P file s)).
Proof.
  unfold processFinalImage.
  destruct (fileToGenerativePart (readable P file) file); cbn;
    intuition discriminate.
Qed.

Lemma getCroppedImg_no_call P imgRef s req :
  ~ In (GenerateContent req) (snd (getCroppedImg P imgRef s)).
Proof.
  unfold getCroppedImg.
  destruct imgRef as [image|], (completedCrop s) as [cc|],
    (truthy_opt (cropImageSrc s)) eqn:Et;
    repeat match goal with
    | |- context [ match ?x with _ => _ end ] =>
        lazymatch x with
        | processFinalImage _ _ _ => fail
        | _ => destruct x eqn:?
        end
    end; cbn [snd]; auto;
    match goal with
    | |- context [ processFinalImage ?P ?f ?s ] =>
        pose proof (processFinalImage_no_call P f s req) as H;
        destruct (processFinalImage P f s) as [s1 eff]; cbn [snd] in *;
        exact H
    end.
Qed.

End EffectFacts.

(** C9. An image the crop-confirmation flow selects is a JPEG image on
    both paths of [getCroppedImg], whatever the format of the source;
    hence, in every state the application can reach, the selected
    image is a JPEG image, a send with a selected image hands its
    request to the AI service with the image (when its payload is not
    empty) as an image/jpeg part, and every image part of every
    request carries the MIME type image/jpeg. *)
Theorem crop_flow_image_is_jpeg (P : Platform) (s : State) :
  Reachable P s ->
  (forall imgRef,
     selectedImage (fst (getCroppedImg P imgRef s)) = selectedImage s
     \/ exists img,
          selectedImage (fst (getCroppedImg P imgRef s)) = Some img
          /\ sel_mimeType img = lit "image/jpeg")
  /\ (forall img,
        selectedImage s = Some img -> sel_mimeType img = lit "image/jpeg")
  /\ (forall img payload id now,
        selectedImage s = Some img -> loadingState s = idle ->
        base64 img = Some payload -> truthy payload = true ->
        exists req,
          snd (step P s (SendClick id now)) = [GenerateContent req]
          /\ In (InlineDataPart payload (lit "image/jpeg")) (req_parts req))
  /\ (forall e req d m,
        In (GenerateContent req) (snd (step P s e)) ->
        In (InlineDataPart d m) (req_parts req) ->
        m = lit "image/jpeg").
Proof.
  intros Hs. split; [|split; [|split]].
  - intros imgRef. apply CropFacts.getCroppedImg_selected.
  - apply (ChatFacts.selected_is_jpeg P s Hs).
  - intros img payload id now Himg Hidle Hb Ht.
    pose proof (ChatFacts.selected_is_jpeg P s Hs img Himg) as Hj.
    assert (Hg : sendRejected s = false).
    { unfold sendRejected. rewrite Himg, Hidle. cbn.
      now rewrite andb_false_r. }
    exists (requestOf s). cbn [step].
    rewrite ChatFacts.handleSendMessage_begin_accepted by assumption.
    split; [reflexivity|].
    unfold requestOf. cbn. unfold solveHomework_parts.
    rewrite Himg. cbn. rewrite Hb, Ht, Hj. now left.
  - intros e req d m Heff Hpart.
    destruct e; cbn [step snd] in Heff; try contradiction.
    + now apply EffectFacts.getCroppedImg_no_call in Heff.
    + destruct (sendRejected s) eqn:Hg.
      * rewrite ChatFacts.handleSendMessage_begin_rejected in Heff by assumption.
        contradiction.
      * rewrite ChatFacts.handleSendMessage_begin_accepted in Heff by assumption.
        destruct Heff as [Heq|[]]. inversion Heq; subst req.
        apply ChatFacts.inline_part_of_request in Hpart.
        destruct (selectedImage s) as [img|] eqn:Himg; [|discriminate].
        inversion Hpart; subst m.
        now apply (ChatFacts.selected_is_jpeg P s Hs).
    + destruct o; cbn in Heff; intuition discriminate.
Qed.

Lemma crop_flow_image_is_jpeg_witness :
  Reachable Sample.platform Sample.accepted
  /\ In (InlineDataPart (Base64.encode Sample.pngBytes) (lit "image/jpeg"))
       (req_parts (requestOf Sample.accepted))
  /\ (forall e req d m,
        In (GenerateContent req) (snd (step Sample.platform Sample.accepted e)) ->
        In (InlineDataPart d m) (req_parts req) ->
        m = lit "image/jpeg").
Proof.
  assert (H : Reachable Sample.platform Sample.accepted)
    by (unfold Sample.accepted, Sample.picked; repeat constructor).
  split; [exact H|]. split; [now left|].
  exact (proj2 (proj2 (proj2 (crop_flow_image_is_jpeg _ _ H)))).
Defined.

(** C1, as the code has it.  In every state the application can
    reach, a send appends the newly created user message or changes
    nothing, a settled service call appends one newly created model
    message, and every other operation but Clear Chat leaves the list
    as it is: in all these the existing messages stay in place
    unchanged.  Clear Chat replaces the list by its first message
    alone, the welcome message, and so removes all later messages. *)
Theorem messages_appended_or_cleared (P : Platform) (s : State) :
  Reachable P s ->
  forall e,
    let s' := fst (step P s e) in
    match e with
    | ClearChatClick =>
        exists now,
          firstn 1 (messages s) = [welcome now]
          /\ messages s' = [welcome now]
    | SendClick id now =>
        messages s' = messages s
        \/ messages s' = messages s ++ [userMessageOf id now s]
    | ServiceSettled id now o =>
        exists m,
          messages s' = messages s ++ [m]
          /\ msg_id m = id /\ msg_role m = MODEL /\ msg_timestamp m = now
    | _ => messages s' = messages s
    end.
Proof.
  intros Hs e. destruct e; cbn; try reflexivity.
  - apply CropFacts.getCroppedImg_messages.
  - unfold handleSendMessage_begin. destruct (sendRejected s); cbn; auto.
  - destruct o; cbn; eauto 6.
  - destruct (ChatFacts.messages_start_with_welcome P s Hs) as (now & rest & E).
    exists now. now rewrite E.
Qed.

Lemma messages_appended_or_cleared_witness :
  Reachable Sample.platform Sample.awaiting
  /\ exists now,
       firstn 1 (messages Sample.awaiting) = [welcome now]
       /\ messages (fst (step Sample.platform Sample.awaiting ClearChatClick))
          = [welcome now].
Proof.
  assert (H : Reachable Sample.platform Sample.awaiting)
    by (unfold Sample.awaiting, Sample.typed; repeat constructor).
  split; [exact H|].
  exact (messages_appended_or_cleared _ _ H ClearChatClick).
Defined.

(** C1, as stated, fails: after a question has been sent the list
    holds the welcome message and the user message, and Clear Chat
    leaves a list that does not extend it. *)
Lemma clear_chat_removes_messages :
  Reachable Sample.platform Sample.awaiting
  /\ List.length (messages Sample.awaiting) = 2%nat
  /\ ~ (exists new,
          messages (fst (step Sample.platform Sample.awaiting ClearChatClick))
          = messages Sample.awaiting ++ new).
Proof.
  split; [unfold Sample.awaiting, Sample.typed; repeat constructor|].
  split; [reflexivity|].
  intros [new H]. vm_compute in H. discriminate.
Qed.

(** C2. While [loadingState] is not idle, [handleSendMessage] returns
    at its guard: the state is the same in every field (message list,
    input text, selected image and loading state among them) and no
    request goes to the AI service. *)
Theorem send_while_busy_is_noop (P : Platform) (E : SendEnv) (s : State) :
  loadingState s <> idle ->
  handleSendMessage E s = (s, [])
  /\ step P s (SendClick (userMessageId E) (userNow E)) = (s, []).
Proof.
  intros Hbusy. apply ChatFacts.busy_rejected in Hbusy.
  unfold handleSendMessage. cbn [step].
  now rewrite ChatFacts.handleSendMessage_begin_rejected.
Qed.

Lemma send_while_busy_is_noop_witness :
  loadingState Sample.awaiting <> idle
  /\ handleSendMessage Sample.failing Sample.awaiting = (Sample.awaiting, [])
  /\ step Sample.platform Sample.awaiting (SendClick (lit "u1") 1)
     = (Sample.awaiting, []).
Proof.
  assert (H : loadingState Sample.awaiting <> idle) by discriminate.
  split; [exact H|].
  exact (send_while_busy_is_noop Sample.platform Sample.failing _ H).
Defined.

(** C3. When the service call of a run of [handleSendMessage] throws,
    [solveHomework] throws in turn, and the history grows by the user
    message followed by exactly one model message with the error flag
    and the fixed apology; the loading state is idle again.  The same
    holds event by event: the settlement appends that one message to
    whatever the list is then. *)
Theorem failed_call_appends_error_message
    (E : SendEnv) (s : State) (message : option jsstring) :
  sendRejected s = false ->
  ai E (requestOf s) = Throws message ->
  let errorMessage (id : MessageId) (now : Z) :=
    {| msg_id := id; msg_role := MODEL;
       msg_text :=
         lit "Sorry, I encountered an error. Please check your connection.";
       msg_image := None; msg_timestamp := now;
       msg_isError := Some true |} in
  (exists reason,
     snd (solveHomework (ai E) (inputText s)
            (currentBase64 (selectedImage s))
            (currentMimeType (selectedImage s))
            (Language_string (language s)))
     = Err reason)
  /\ messages (fst (handleSendMessage E s))
     = messages s
       ++ [userMessageOf (userMessageId E) (userNow E) s;
           errorMessage (replyId E) (replyNow E)]
  /\ loadingState (fst (handleSendMessage E s)) = idle
  /\ (forall P s0 id now,
        let s1 := fst (step P s0 (ServiceSettled id now (Throws message))) in
        messages s1 = messages s0 ++ [errorMessage id now]
        /\ loadingState s1 = idle).
Proof.
  intros Hg Hai errorMessage. unfold handleSendMessage, solveHomework.
  rewrite ChatFacts.handleSendMessage_begin_accepted by assumption.
  fold (requestOf s). rewrite Hai. cbn.
  rewrite <- app_assoc. repeat split. eauto.
Qed.

Lemma failed_call_appends_error_message_witness :
  sendRejected Sample.typed = false
  /\ List.map msg_isError (messages (fst (handleSendMessage Sample.failing Sample.typed)))
     = [None; None; Some true]
  /\ loadingState (fst (handleSendMessage Sample.failing Sample.typed)) = idle.
Proof.
  split; [reflexivity|].
  destruct (failed_call_appends_error_message
              Sample.failing Sample.typed None eq_refl eq_refl)
    as (_ & Hm & Hl & _).
  split; [now rewrite Hm|exact Hl].
Defined.

(** C10. When the service answers without text (undefined or empty),
    [solveHomework] returns the fixed sentence instead, and
    [handleSendMessage] appends it as a model message without the
    error flag. *)
Theorem empty_reply_becomes_fixed_sentence
    (E : SendEnv) (s : State) (text : option jsstring) :
  sendRejected s = false ->
  truthy_opt text = false ->
  ai E (requestOf s) = Replies text ->
  snd (solveHomework (ai E) (inputText s)
         (currentBase64 (selectedImage s))
         (currentMimeType (selectedImage s))
         (Language_string (language s)))
  = Ok (lit "I couldn't generate a solution. Please try again.")
  /\ snd (handleSendMessage E s) = [GenerateContent (requestOf s)]
  /\ messages (fst (handleSendMessage E s))
     = messages s
       ++ [userMessageOf (userMessageId E) (userNow E) s;
           {| msg_id := replyId E; msg_role := MODEL;
              msg_text :=
                lit "I couldn't generate a solution. Please try again.";
              msg_image := None; msg_timestamp := replyNow E;
              msg_isError := None |}]
  /\ loadingState (fst (handleSendMessage E s)) = idle.
Proof.
  intros Hg Ht Hai. unfold handleSendMessage, solveHomework.
  rewrite ChatFacts.handleSendMessage_begin_accepted by assumption.
  fold (requestOf s). rewrite Hai.
  assert (Hs : solveHomework_settle (Replies text) = ([], Ok NO_SOLUTION)).
  { destruct text as [[|c t]|]; [reflexivity|discriminate|reflexivity]. }
  rewrite Hs. cbn. rewrite <- app_assoc. repeat split.
Qed.

Lemma empty_reply_becomes_fixed_sentence_witness :
  sendRejected Sample.typed = false
  /\ List.map msg_text
       (messages (fst (handleSendMessage Sample.speechless Sample.typed)))
     = [welcomeText; lit "2+2?";
        lit "I couldn't generate a solution. Please try again."]
  /\ List.map msg_isError
       (messages (fst (handleSendMessage Sample.speechless Sample.typed)))
     = [None; None; None].
Proof.
  split; [reflexivity|].
  destruct (empty_reply_becomes_fixed_sentence
              Sample.speechless Sample.typed None eq_refl eq_refl eq_refl)
    as (_ & _ & Hm & _).
  split; now rewrite Hm.
Defined.

(** * Further properties of the code *)

(** ** White space *)

Module TrimFacts.

Lemma trimStart_blank s :
  forallb isWhiteSpace s = true -> trimStart s = [].
Proof.
  induction s as [|c s IH]; cbn; [reflexivity|].
  intros H. apply andb_true_iff in H. destruct H as [Hc Hs].
  rewrite Hc. now apply IH.
Qed.

Lemma trimStart_nil s :
  trimStart s = [] -> forallb isWhiteSpace s = true.
Proof.
  induction s as [|c s IH]; cbn; [reflexivity|].
  destruct (isWhiteSpace c); [exact IH|discriminate].
Qed.

Lemma trimStart_app_blank ws s :
  forallb isWhiteSpace ws = true -> trimStart (ws ++ s) = trimStart s.
Proof.
  induction ws as [|c ws IH]; cbn; [reflexivity|].
  intros H. apply andb_true_iff in H. destruct H as [Hc Hs].
  rewrite Hc. now apply IH.
Qed.

Lemma trimStart_cons c s :
  isWhiteSpace c = false -> trimStart (c :: s) = c :: s.
Proof. cbn. now intros ->. Qed.

(** What [trimStart] returns is empty or starts with a character that
    is not white space. *)
Lemma trimStart_head s :
  trimStart s = []
  \/ exists c r, trimStart s = c :: r /\ isWhiteSpace c = false.
Proof.
  induction s as [|c s IH]; cbn; [now left|].
  destruct (isWhiteSpace c) eqn:E; [exact IH|]. right. eauto.
Qed.

Lemma forallb_rev {A} (f : A -> bool) l :
  forallb f (rev l) = forallb f l.
Proof.
  induction l as [|a l IH]; cbn; [reflexivity|].
  rewrite forallb_app, IH. cbn. rewrite andb_true_r. apply andb_comm.
Qed.

(** The trimmed text is empty exactly when the text is blank. *)
Lemma trim_nil_iff s :
  trim s = [] <-> forallb isWhiteSpace s = true.
Proof.
  unfold trim. split.
  - intros H.
    assert (H1 : trimStart (rev (trimStart s)) = []).
    { apply (f_equal (@rev char16)) in H.
      now rewrite rev_involutive in H. }
    apply trimStart_nil in H1. rewrite forallb_rev in H1.
    destruct (trimStart_head s) as [E|(c & r & E & Hc)].
    + now apply trimStart_nil.
    + rewrite E in H1. cbn in H1. now rewrite Hc in H1.
  - intros H. now rewrite (trimStart_blank s H).
Qed.

Lemma truthy_trim s :
  truthy (trim s) = negb (forallb isWhiteSpace s).
Proof.
  destruct (forallb isWhiteSpace s) eqn:E.
  - apply trim_nil_iff in E. now rewrite E.
  - destruct (trim s) eqn:Et; [|reflexivity].
    apply trim_nil_iff in Et. congruence.
Qed.

(** Trimming removes the blanks around a core that starts and ends
    with characters other than white space. *)
Lemma trim_core (ws1 : jsstring) (a : char16) (mid : jsstring)
    (z : char16) (ws2 : jsstring) :
  forallb isWhiteSpace ws1 = true -> forallb isWhiteSpace ws2 = true ->
  isWhiteSpace a = false -> isWhiteSpace z = false ->
  trim (ws1 ++ a :: mid ++ z :: ws2) = a :: mid ++ [z].
Proof.
  intros H1 H2 Ha Hz. unfold trim.
  rewrite (trimStart_app_blank _ _ H1), (trimStart_cons _ _ Ha).
  change (a :: mid ++ z :: ws2) with ((a :: mid) ++ z :: ws2).
  rewrite rev_app_distr. cbn [rev]. rewrite <- app_assoc.
  rewrite trimStart_app_blank by now rewrite forallb_rev.
  cbn [app]. rewrite (trimStart_cons _ _ Hz).
  change (z :: rev mid ++ [a]) with ([z] ++ rev (a :: mid)).
  rewrite rev_app_distr, rev_involutive. reflexivity.
Qed.

End TrimFacts.

(** ** The renderer *)

Module LineFacts.
Import Markdown JsFacts MarkdownFacts TrimFacts RenderFacts.

Lemma terminator_plain r : isLineTerminator r = true -> plainChar r = true.
Proof.
  unfold isLineTerminator. intros H.
  repeat (apply orb_true_iff in H; destruct H as [H|H]);
    apply N.eqb_eq in H; subst r; reflexivity.
Qed.

(** The lazy group does not reach over a line terminator. *)
Lemma lazyUntil_terminator d0 dr g r rest :
  ~ In d0 g -> d0 <> r -> isLineTerminator r = true ->
  lazyUntil (d0 :: dr) (g ++ r :: rest) = None.
Proof.
  intros Hg Hr Ht. induction g as [|c g IH]; cbn [app lazyUntil stripPrefix].
  - apply char_eqb_neq in Hr. now rewrite Hr, Ht.
  - destruct (char_eqb d0 c) eqn:E.
    + apply char_eqb_eq in E. exfalso. apply Hg. now left.
    + destruct (isLineTerminator c); [reflexivity|].
      rewrite IH; [reflexivity|]. intros Hin. apply Hg. now right.
Qed.

Lemma escapeHtml_literal s :
  Forall (fun c => escapeChar c = [c]) s -> escapeHtml s = s.
Proof.
  rewrite escapeHtml_flat_map.
  induction 1 as [|c s Hc _ IH]; cbn; [reflexivity|].
  now rewrite Hc, IH.
Qed.

Lemma plainText_literal s :
  plainText s = true -> Forall (fun c => escapeChar c = [c]) s.
Proof.
  unfold plainText. rewrite forallb_forall, Forall_forall.
  intros H c Hc. apply escapeChar_plain. now apply H.
Qed.

Lemma matchAt_body d body : matchAt d (d ++ body) = lazyUntil d body.
Proof. unfold matchAt. now rewrite stripPrefix_app. Qed.

(** A single delimiter character does not open a doubled delimiter. *)
Lemma matchAt_single d0 c rest :
  c <> d0 -> matchAt [d0; d0] (d0 :: c :: rest) = None.
Proof.
  intros Hc. unfold matchAt. cbn [stripPrefix]. rewrite char_eqb_refl.
  assert (E : char_eqb d0 c = false) by (apply char_eqb_neq; congruence).
  now rewrite E.
Qed.

(** The bold pass leaves a pair of markers with a line terminator
    between them as it is. *)
Lemma boldPass_across_terminator tpl a g1 r g2 :
  ~ In 42 a -> ~ In 42 g1 -> ~ In 42 g2 -> isLineTerminator r = true ->
  replaceDelimited [42; 42] tpl (a ++ 42 :: 42 :: g1 ++ r :: g2 ++ [42; 42])
  = a ++ 42 :: 42 :: g1 ++ r :: g2 ++ [42; 42].
Proof.
  intros Ha H1 H2 Hr.
  assert (Hr42 : 42 <> r) by (intros <-; discriminate).
  rewrite (replaceDelimited_skip 42 [42] _ a) by exact Ha.
  f_equal. rewrite replaceDelimited_cons.
  change (42 :: 42 :: g1 ++ r :: g2 ++ [42; 42])
    with ([42; 42] ++ g1 ++ r :: g2 ++ [42; 42]).
  rewrite matchAt_body, lazyUntil_terminator by auto.
  cbn [app]. f_equal. rewrite replaceDelimited_cons.
  match goal with
  | |- context [ matchAt ?d ?s ] =>
      assert (Hm : matchAt d s = None)
  end.
  { destruct g1 as [|c g1]; cbn [app]; apply matchAt_single.
    - congruence.
    - intros ->. apply H1. now left. }
  rewrite Hm. f_equal.
  rewrite (replaceDelimited_skip 42 [42] _ g1) by exact H1.
  f_equal.
  change (r :: g2 ++ [42; 42]) with ((r :: g2) ++ [42; 42]).
  rewrite (replaceDelimited_skip 42 [42] _ (r :: g2)).
  - reflexivity.
  - intros [Hin|Hin]; [now apply Hr42|now apply H2].
Qed.

Lemma formatBold_across_terminator a g1 r g2 :
  plainText a = true -> plainText g1 = true -> plainText g2 = true ->
  isLineTerminator r = true ->
  formatBold (a ++ lit "**" ++ g1 ++ r :: g2 ++ lit "**")
  = a ++ lit "**" ++ g1 ++ r :: g2 ++ lit "**".
Proof.
  intros Ha H1 H2 Hr. pose proof (terminator_plain r Hr) as Hp.
  unfold formatBold.
  change (lit "**") with [42; 42]. change (lit "`") with [96].
  rewrite escapeHtml_literal.
  - change (a ++ [42; 42] ++ g1 ++ r :: g2 ++ [42; 42])
      with (a ++ 42 :: 42 :: g1 ++ r :: g2 ++ [42; 42]).
    rewrite boldPass_across_terminator;
      auto using plainText_notin, star_not_plain.
    apply replaceDelimited_absent.
    intros Hin. apply in_app_or in Hin. destruct Hin as [Hin|Hin].
    + exact (plainText_notin _ _ Ha backtick_not_plain Hin).
    + destruct Hin as [Hin|[Hin|Hin]]; try discriminate.
      apply in_app_or in Hin. destruct Hin as [Hin|[Hin|Hin]].
      * exact (plainText_notin _ _ H1 backtick_not_plain Hin).
      * subst r. discriminate.
      * apply in_app_or in Hin. destruct Hin as [Hin|Hin].
        -- exact (plainText_notin _ _ H2 backtick_not_plain Hin).
        -- cbn in Hin. intuition discriminate.
  - apply Forall_app. split; [now apply plainText_literal|].
    apply Forall_app. split; [repeat constructor|].
    apply Forall_app. split; [now apply plainText_literal|].
    constructor; [now apply escapeChar_plain|].
    apply Forall_app. split; [now apply plainText_literal|].
    repeat constructor.
Qed.

Lemma replaceFirst_prefix p r t :
  replaceFirst p r (p ++ t) = r ++ t.
Proof.
  destruct (p ++ t) eqn:E; cbn [replaceFirst]; rewrite <- E;
    now rewrite stripPrefix_app.
Qed.

Lemma startsWith_prefix p t : startsWith p (p ++ t) = true.
Proof. unfold startsWith. now rewrite stripPrefix_app. Qed.

Lemma renderLine_headers t :
  renderLine (lit "### " ++ t) = H4 t
  /\ renderLine (lit "## " ++ t) = H3 t
  /\ renderLine (lit "# " ++ t) = H2 t.
Proof. repeat split. Qed.

(** A line that starts with anything but a hash is no header. *)
Lemma not_header line :
  match line with
  | [] => True
  | c :: _ => c <> 35
  end ->
  startsWith (lit "### ") line = false
  /\ startsWith (lit "## ") line = false
  /\ startsWith (lit "# ") line = false.
Proof.
  destruct line as [|c line]; [now repeat split|].
  intros Hc. unfold startsWith.
  change (lit "### ") with [35; 35; 35; 32].
  change (lit "## ") with [35; 35; 32]. change (lit "# ") with [35; 32].
  cbn [stripPrefix].
  assert (E : char_eqb 35 c = false) by (apply char_eqb_neq; congruence).
  now rewrite E.
Qed.

Lemma renderLine_blank line :
  blankText line = true -> renderLine line = Spacer.
Proof.
  intros H. unfold renderLine.
  destruct (not_header line) as (E1 & E2 & E3).
  { destruct line as [|c line]; [exact I|]. cbn in H.
    apply andb_true_iff in H. destruct H as [Hc _].
    intros ->. discriminate. }
  rewrite E1, E2, E3.
  apply trim_nil_iff in H. now rewrite H.
Qed.

Lemma renderLine_bullet (indent : jsstring) (marker : char16)
    (body : jsstring) (z : char16) (trail : jsstring) :
  blankText indent = true -> blankText trail = true ->
  marker = 45 \/ marker = 42 ->
  isWhiteSpace z = false ->
  renderLine (indent ++ marker :: 32 :: body ++ z :: trail)
  = Bullet (formatBold (body ++ [z])).
Proof.
  intros Hi Ht Hm Hz. unfold renderLine.
  assert (Hmw : isWhiteSpace marker = false)
    by (destruct Hm; subst marker; reflexivity).
  assert (Hm35 : marker <> 35)
    by (destruct Hm; subst marker; discriminate).
  destruct (not_header (indent ++ marker :: 32 :: body ++ z :: trail))
    as (E1 & E2 & E3).
  { destruct indent as [|c indent]; cbn; [exact Hm35|].
    cbn in Hi. apply andb_true_iff in Hi. destruct Hi as [Hc _].
    intros ->. discriminate. }
  rewrite E1, E2, E3.
  pose proof (trim_core indent marker (32 :: body) z trail Hi Ht Hmw Hz)
    as Htrim.
  cbn [app] in Htrim. unfold jsstring, char16 in *. rewrite Htrim.
  destruct Hm; subst marker; reflexivity.
Qed.

Lemma split_length sep s :
  List.length (split sep s) = S (count_occ N.eq_dec s sep).
Proof.
  induction s as [|c s IH]; cbn; [reflexivity|].
  destruct (N.eq_dec c sep) as [->|Hc].
  - rewrite char_eqb_refl. cbn. now rewrite IH.
  - apply char_eqb_neq in Hc. rewrite Hc.
    destruct (split sep s); cbn in *; [discriminate|exact IH].
Qed.

Lemma renderLine_html line html :
  innerHTML (renderLine line) = Some html -> OnlyFixedTags html.
Proof.
  unfold renderLine.
  repeat match goal with
  | |- context [ if ?b then _ else _ ] => destruct b
  end; cbn; intros H; inversion H; subst;
    apply formatBold_only_fixed_tags.
Qed.

End LineFacts.

(** ** More on the crop flow and the chat *)

Module AppFacts.
Import EncoderFacts CropFacts ChatFacts TrimFacts.

Lemma sendRejected_spec s :
  sendRejected s
  = (blankText (inputText s)
     && match selectedImage s with Some _ => false | None => true end)
    || negb (LoadingState_eqb (loadingState s) idle).
Proof. unfold sendRejected, blankText. now rewrite truthy_trim, negb_involutive. Qed.

Lemma sendRejected_blank s :
  blankText (inputText s) = true -> selectedImage s = None ->
  sendRejected s = true.
Proof. intros Hb Hs. now rewrite sendRejected_spec, Hb, Hs. Qed.

Lemma sendRejected_ready s :
  loadingState s = idle ->
  blankText (inputText s) = false \/ selectedImage s <> None ->
  sendRejected s = false.
Proof.
  intros Hi H. rewrite sendRejected_spec, Hi. cbn. rewrite orb_false_r.
  destruct H as [H|H]; [now rewrite H|].
  destruct (selectedImage s); [apply andb_false_r|congruence].
Qed.

(** The state an accepted send leaves: nothing typed, nothing selected,
    the answer awaited. *)
Lemma after_send_rejected id now s :
  sendRejected s = false ->
  sendRejected (fst (handleSendMessage_begin id now s)) = true.
Proof.
  intros H. now rewrite handleSendMessage_begin_accepted.
Qed.

(** A file with the JPEG type is rejected or selected with the Base64
    text of its bytes. *)
Lemma processFinalImage_jpeg P file s :
  file_type file = JPEG ->
  processFinalImage P file s
  = (if readable P file
     then (setSelectedImage
             (Some {| base64 := Some (Base64.encode (file_bytes file));
                      sel_mimeType := JPEG;
                      preview := createObjectURL P file |}) s, [])
     else (s, [ConsoleError (lit "Error processing image");
               Alert (lit "Failed to process image.")])).
Proof.
  intros Hj. destruct (readable P file) eqn:Hr.
  - rewrite processFinalImage_readable; auto.
    + now rewrite Hj.
    + rewrite Hj. exact JPEG_no_comma.
  - unfold processFinalImage, fileToGenerativePart, readAsDataURL.
    now rewrite Hr.
Qed.

Lemma getCroppedImg_payload P imgRef s :
  selectedImage (fst (getCroppedImg P imgRef s)) = selectedImage s
  \/ exists img bytes,
       selectedImage (fst (getCroppedImg P imgRef s)) = Some img
       /\ base64 img = Some (Base64.encode bytes).
Proof.
  destruct (getCroppedImg_shape P imgRef s) as [->|[file [Hj [->| ->]]]];
    auto; rewrite (processFinalImage_jpeg P file s Hj);
    (destruct (readable P file); cbn;
     [right; do 2 eexists; split; reflexivity|now left]).
Qed.

Lemma selected_payload P s :
  Reachable P s ->
  forall img, selectedImage s = Some img ->
  exists bytes, base64 img = Some (Base64.encode bytes).
Proof.
  induction 1 as [now|s e Hs IH]; intros img Himg.
  - discriminate.
  - destruct e; cbn in Himg; try (now apply IH); try discriminate.
    + destruct (getCroppedImg_payload P imgRef s)
        as [Heq|(img' & bytes & Heq & Hb)].
      * rewrite Heq in Himg. now apply IH.
      * rewrite Heq in Himg. inversion Himg; subst. eauto.
    + unfold handleSendMessage_begin in Himg.
      destruct (sendRejected s); cbn in Himg; [now apply IH|discriminate].
    + destruct o; cbn in Himg; now apply IH.
Qed.

(** What [getCroppedImg] never touches. *)
Lemma getCroppedImg_frame P imgRef s :
  let s' := fst (getCroppedImg P imgRef s) in
  messages s' = messages s /\ inputText s' = inputText s
  /\ loadingState s' = loadingState s /\ language s' = language s
  /\ crop s' = crop s /\ completedCrop s' = completedCrop s.
Proof.
  cbn zeta.
  destruct (getCroppedImg_shape P imgRef s) as [->|[file [Hj [->| ->]]]];
    [now repeat split| |];
    destruct (processFinalImage_shape P file s) as [->|[img [-> Hm]]];
    now repeat split.
Qed.

Ltac flagged :=
  constructor; [unfold flaggedByHandlers; cbn; repeat split; congruence
               |constructor].

Lemma flagged_invariant P s :
  Reachable P s -> Forall flaggedByHandlers (messages s).
Proof.
  induction 1 as [now|s e Hs IH].
  - cbn. flagged.
  - destruct e; cbn; try exact IH.
    + now rewrite getCroppedImg_messages.
    + unfold handleSendMessage_begin.
      destruct (sendRejected s); cbn; [exact IH|].
      apply Forall_app. split; [exact IH|flagged].
    + destruct o; cbn; (apply Forall_app; split; [exact IH|flagged]).
    + destruct (messages s) as [|m l]; cbn; [constructor|].
      inversion IH; subst. constructor; [assumption|constructor].
Qed.

End AppFacts.

(** ** The renderer, line by line *)

(** X1. Whatever the content, every string [MarkdownText] sets as
    inner HTML (the bullets and the paragraphs) has angle brackets
    only in the four fixed tags. *)
Theorem markdown_html_only_fixed_tags
    (content : jsstring) (blocks : list Markdown.Block)
    (b : Markdown.Block) (html : jsstring) :
  Markdown.MarkdownText content = Some blocks ->
  In b blocks ->
  Markdown.innerHTML b = Some html ->
  Markdown.OnlyFixedTags html.
Proof.
  unfold Markdown.MarkdownText. destruct (truthy content); [|discriminate].
  intros H Hb Hh. inversion H; subst blocks.
  apply in_map_iff in Hb. destruct Hb as (line & <- & _).
  now apply (LineFacts.renderLine_html line).
Qed.

Lemma markdown_html_only_fixed_tags_witness :
  Markdown.MarkdownText (lit "1 < 2")
  = Some [Markdown.Paragraph (lit "1 &lt; 2")]
  /\ Markdown.OnlyFixedTags (lit "1 &lt; 2").
Proof.
  split; [reflexivity|].
  exact (markdown_html_only_fixed_tags (lit "1 < 2")
           [Markdown.Paragraph (lit "1 &lt; 2")]
           (Markdown.Paragraph (lit "1 &lt; 2")) (lit "1 &lt; 2")
           eq_refl (or_introl eq_refl) eq_refl).
Defined.

(** X2. A text without [&], [<], [>], star and backtick is returned by
    [formatBold] as it is. *)
Theorem formatBold_plain_text_unchanged (text : jsstring) :
  plainText text = true -> Markdown.formatBold text = text.
Proof. apply RenderFacts.formatBold_plain. Qed.

Lemma formatBold_plain_text_unchanged_witness :
  plainText (lit "2 + 2 = 4") = true
  /\ Markdown.formatBold (lit "2 + 2 = 4") = lit "2 + 2 = 4".
Proof.
  split; [reflexivity|].
  exact (formatBold_plain_text_unchanged (lit "2 + 2 = 4") eq_refl).
Defined.

(** X3. A bold span after plain text: when the text before the opening
    marker and the group are plain and the group has no line
    terminator, [formatBold] keeps the text before, wraps the group in
    the bold tag and formats what follows the closing marker on its
    own. *)
Theorem formatBold_bold_span (a g b : jsstring) :
  plainText a = true -> plainText g = true -> oneLine g = true ->
  Markdown.formatBold (a ++ lit "**" ++ g ++ lit "**" ++ b)
  = a ++ Markdown.boldOpen ++ g ++ Markdown.boldClose
      ++ Markdown.formatBold b.
Proof. apply RenderFacts.bold_span_wrapped. Qed.

Lemma formatBold_bold_span_witness :
  plainText (lit "so ") = true /\ plainText (lit "x = 4") = true
  /\ oneLine (lit "x = 4") = true
  /\ Markdown.formatBold (lit "so **x = 4** & `y`")
     = lit "so " ++ Markdown.boldOpen ++ lit "x = 4" ++ Markdown.boldClose
         ++ lit " &amp; " ++ Markdown.codeOpen ++ lit "y"
         ++ Markdown.codeClose.
Proof.
  split; [reflexivity|]. split; [reflexivity|]. split; [reflexivity|].
  exact (formatBold_bold_span (lit "so ") (lit "x = 4") (lit " & `y`")
           eq_refl eq_refl eq_refl).
Defined.

(** X4. A code span after plain text: under the same conditions the
    group between two backticks is wrapped in the code tag and the rest
    is formatted on its own. *)
Theorem formatBold_code_span (a g b : jsstring) :
  plainText a = true -> plainText g = true -> oneLine g = true ->
  Markdown.formatBold (a ++ lit "`" ++ g ++ lit "`" ++ b)
  = a ++ Markdown.codeOpen ++ g ++ Markdown.codeClose
      ++ Markdown.formatBold b.
Proof. apply RenderFacts.code_span_wrapped. Qed.

Lemma formatBold_code_span_witness :
  plainText (lit "use ") = true /\ plainText (lit "sin") = true
  /\ oneLine (lit "sin") = true
  /\ Markdown.formatBold (lit "use `sin` < 1")
     = lit "use " ++ Markdown.codeOpen ++ lit "sin" ++ Markdown.codeClose
         ++ lit " &lt; 1".
Proof.
  split; [reflexivity|]. split; [reflexivity|]. split; [reflexivity|].
  exact (formatBold_code_span (lit "use ") (lit "sin") (lit " < 1")
           eq_refl eq_refl eq_refl).
Defined.

(** X5. Bold markers are not matched across a line terminator: plain
    text between two double stars that holds a carriage return (or
    another line terminator) is returned with its stars. *)
Theorem formatBold_not_across_terminator
    (a g1 : jsstring) (r : char16) (g2 : jsstring) :
  plainText a = true -> plainText g1 = true -> plainText g2 = true ->
  Markdown.isLineTerminator r = true ->
  Markdown.formatBold (a ++ lit "**" ++ g1 ++ r :: g2 ++ lit "**")
  = a ++ lit "**" ++ g1 ++ r :: g2 ++ lit "**".
Proof. apply LineFacts.formatBold_across_terminator. Qed.

Lemma formatBold_not_across_terminator_witness :
  Markdown.isLineTerminator 13 = true
  /\ Markdown.formatBold (lit "**a" ++ 13 :: lit "b**")
     = lit "**a" ++ 13 :: lit "b**".
Proof.
  split; [reflexivity|].
  exact (formatBold_not_across_terminator [] (lit "a") 13 (lit "b")
           eq_refl eq_refl eq_refl eq_refl).
Defined.

(** X6. A line that starts with one, two or three hashes and a space
    is a header whose text is the rest of the line, taken as it is:
    markers and HTML-special characters in it are not rewritten, and a
    header sets no inner HTML. *)
Theorem renderLine_header_text (t : jsstring) :
  Markdown.renderLine (lit "### " ++ t) = Markdown.H4 t
  /\ Markdown.renderLine (lit "## " ++ t) = Markdown.H3 t
  /\ Markdown.renderLine (lit "# " ++ t) = Markdown.H2 t
  /\ Markdown.innerHTML (Markdown.renderLine (lit "### " ++ t)) = None
  /\ Markdown.innerHTML (Markdown.renderLine (lit "## " ++ t)) = None
  /\ Markdown.innerHTML (Markdown.renderLine (lit "# " ++ t)) = None.
Proof.
  destruct (LineFacts.renderLine_headers t) as (H4 & H3 & H2).
  rewrite H4, H3, H2. now repeat split.
Qed.

(** X7. An empty line and a line of white space only are spacers. *)
Theorem renderLine_blank_is_spacer (line : jsstring) :
  blankText line = true -> Markdown.renderLine line = Markdown.Spacer.
Proof. apply LineFacts.renderLine_blank. Qed.

Lemma renderLine_blank_is_spacer_witness :
  blankText [32; 9; 13] = true
  /\ Markdown.renderLine [32; 9; 13] = Markdown.Spacer.
Proof.
  split; [reflexivity|].
  exact (renderLine_blank_is_spacer [32; 9; 13] eq_refl).
Defined.

(** X8. A line made of indentation, a dash or a star, a space, a body
    that ends in a character other than white space, and trailing
    white space is a bullet; its inner HTML is the formatted body,
    without the indentation, the marker and the trailing white
    space. *)
Theorem renderLine_bullet_body
    (indent : jsstring) (marker : char16) (body : jsstring)
    (z : char16) (trail : jsstring) :
  blankText indent = true -> blankText trail = true ->
  marker = 45 \/ marker = 42 ->
  isWhiteSpace z = false ->
  Markdown.renderLine (indent ++ marker :: 32 :: body ++ z :: trail)
  = Markdown.Bullet (Markdown.formatBold (body ++ [z])).
Proof. apply LineFacts.renderLine_bullet. Qed.

Lemma renderLine_bullet_body_witness :
  isWhiteSpace 109 = false
  /\ Markdown.renderLine (lit "  * **a** ite" ++ 109 :: lit "  ")
     = Markdown.Bullet
         (Markdown.boldOpen ++ lit "a" ++ Markdown.boldClose ++ lit " item").
Proof.
  split; [reflexivity|].
  exact (renderLine_bullet_body (lit "  ") 42 (lit "**a** ite") 109 (lit "  ")
           eq_refl eq_refl (or_intror eq_refl) eq_refl).
Defined.

(** X9. [MarkdownText] renders nothing for the empty content, and for
    any other content one block per line: one more than the content
    has line feeds. *)
Theorem MarkdownText_one_block_per_line :
  Markdown.MarkdownText [] = None
  /\ forall (c : char16) (rest : jsstring),
       exists blocks,
         Markdown.MarkdownText (c :: rest) = Some blocks
         /\ List.length blocks = S (lineFeeds (c :: rest)).
Proof.
  split; [reflexivity|]. intros c rest.
  exists (List.map Markdown.renderLine (split 10 (c :: rest))).
  split; [reflexivity|].
  rewrite length_map. apply LineFacts.split_length.
Qed.

(** ** The crop flow, path by path *)

(** X10. With a confirmed crop, Done on the crop path selects the
    bytes the canvas was encoded to (the selected payload decodes to
    exactly those bytes) as an image/jpeg image, closes the dialog and
    drops the source, and reports nothing. *)
Theorem getCroppedImg_crop_path
    (P : Platform) (image : HTMLImageElement) (s : State)
    (cc : PixelCrop) (src : jsstring) (blob : list Byte.byte) :
  completedCrop s = Some cc ->
  cropImageSrc s = Some src ->
  truthy src = true ->
  getContext2d P = true ->
  toBlob P image (croppedCanvas P image cc) = Some blob ->
  readable P (mkFile blob (lit "cropped.jpg") JPEG) = true ->
  exists payload,
    getCroppedImg P (Some image) s
    = (setCropImageSrc None
         (setIsCropping false
            (setSelectedImage
               (Some {| base64 := Some payload;
                        sel_mimeType := lit "image/jpeg";
                        preview :=
                          createObjectURL P
                            (mkFile blob (lit "cropped.jpg") JPEG) |})
               s)),
       [])
    /\ Base64.decode payload = Some blob.
Proof.
  intros Hc Hsrc Ht Hctx Hb Hr. exists (Base64.encode blob). split.
  - unfold getCroppedImg. rewrite Hc, Hsrc. cbn [truthy_opt].
    rewrite Ht, Hctx, Hb.
    now rewrite AppFacts.processFinalImage_jpeg, Hr.
  - apply Base64Facts.decode_encode.
Qed.

Lemma getCroppedImg_crop_path_witness :
  completedCrop MoreSamples.confirmed = Some Sample.crop400
  /\ exists payload,
       selectedImage
         (fst (getCroppedImg Sample.platform (Some Sample.image1200)
                 MoreSamples.confirmed))
       = Some {| base64 := Some payload;
                 sel_mimeType := lit "image/jpeg";
                 preview := lit "blob:preview" |}
       /\ Base64.decode payload = Some Sample.jpegBytes.
Proof.
  split; [reflexivity|].
  destruct (getCroppedImg_crop_path
              Sample.platform Sample.image1200 MoreSamples.confirmed
              Sample.crop400 (dataURL (lit "image/png") Sample.pngBytes)
              Sample.jpegBytes eq_refl eq_refl eq_refl eq_refl eq_refl eq_refl)
    as [payload [Hrun Hdec]].
  exists payload. rewrite Hrun. split; [reflexivity|exact Hdec].
Defined.

(** X11. When the canvas gives no 2d context, or encodes to no blob,
    Done on the crop path returns without a trace: the state is the
    same (the dialog stays open, nothing is selected) and nothing is
    reported. *)
Theorem getCroppedImg_canvas_failure_is_silent
    (P : Platform) (image : HTMLImageElement) (s : State) (cc : PixelCrop) :
  completedCrop s = Some cc ->
  truthy_opt (cropImageSrc s) = true ->
  getContext2d P = false
  \/ toBlob P image (croppedCanvas P image cc) = None ->
  getCroppedImg P (Some image) s = (s, []).
Proof.
  intros Hc Ht H. unfold getCroppedImg. rewrite Hc, Ht.
  destruct (getContext2d P); [|reflexivity].
  destruct H as [H|H]; [discriminate|]. now rewrite H.
Qed.

Lemma getCroppedImg_canvas_failure_is_silent_witness :
  completedCrop MoreSamples.confirmed = Some Sample.crop400
  /\ getContext2d MoreSamples.contextless = false
  /\ getCroppedImg MoreSamples.contextless (Some Sample.image1200)
       MoreSamples.confirmed
     = (MoreSamples.confirmed, []).
Proof.
  split; [reflexivity|]. split; [reflexivity|].
  exact (getCroppedImg_canvas_failure_is_silent
           MoreSamples.contextless Sample.image1200 MoreSamples.confirmed
           Sample.crop400 eq_refl eq_refl (or_introl eq_refl)).
Defined.

(** X12. When the file built on the fallback path cannot be read, the
    failure is logged and alerted with the fixed text, the selected
    image stays as it was, and the dialog is closed all the same. *)
Theorem getCroppedImg_fallback_unreadable
    (P : Platform) (imgRef : option HTMLImageElement) (s : State)
    (src : jsstring) (blob : list Byte.byte) :
  completedCrop s = None ->
  cropImageSrc s = Some src ->
  truthy src = true ->
  fetchBlob P src = Some blob ->
  readable P (mkFile blob (lit "image.jpg") JPEG) = false ->
  getCroppedImg P imgRef s
  = (setIsCropping false s,
     [ConsoleError (lit "Error processing image");
      Alert (lit "Failed to process image.")]).
Proof.
  intros Hc Hsrc Ht Hf Hr. unfold getCroppedImg. rewrite Hc, Hsrc, Ht, Hf.
  rewrite AppFacts.processFinalImage_jpeg, Hr by reflexivity.
  now destruct imgRef.
Qed.

Lemma getCroppedImg_fallback_unreadable_witness :
  completedCrop Sample.picked = None
  /\ selectedImage
       (fst (getCroppedImg MoreSamples.unreadable None Sample.picked))
     = None
  /\ isCropping
       (fst (getCroppedImg MoreSamples.unreadable None Sample.picked))
     = false
  /\ snd (getCroppedImg MoreSamples.unreadable None Sample.picked)
     = [ConsoleError (lit "Error processing image");
        Alert (lit "Failed to process image.")].
Proof.
  split; [reflexivity|].
  rewrite (getCroppedImg_fallback_unreadable
             MoreSamples.unreadable None Sample.picked
             (dataURL (lit "image/png") Sample.pngBytes) Sample.pngBytes
             eq_refl eq_refl eq_refl eq_refl eq_refl).
  repeat split.
Defined.

(** X13. When the file built on the crop path cannot be read, the
    failure is logged and alerted, the selected image stays as it was,
    and the dialog is closed and the source dropped all the same: the
    picked image is gone. *)
Theorem getCroppedImg_crop_unreadable
    (P : Platform) (image : HTMLImageElement) (s : State)
    (cc : PixelCrop) (blob : list Byte.byte) :
  completedCrop s = Some cc ->
  truthy_opt (cropImageSrc s) = true ->
  getContext2d P = true ->
  toBlob P image (croppedCanvas P image cc) = Some blob ->
  readable P (mkFile blob (lit "cropped.jpg") JPEG) = false ->
  getCroppedImg P (Some image) s
  = (setCropImageSrc None (setIsCropping false s),
     [ConsoleError (lit "Error processing image");
      Alert (lit "Failed to process image.")]).
Proof.
  intros Hc Ht Hctx Hb Hr. unfold getCroppedImg.
  rewrite Hc, Ht, Hctx, Hb.
  now rewrite AppFacts.processFinalImage_jpeg, Hr.
Qed.

Lemma getCroppedImg_crop_unreadable_witness :
  completedCrop MoreSamples.confirmed = Some Sample.crop400
  /\ cropImageSrc
       (fst (getCroppedImg MoreSamples.unreadable (Some Sample.image1200)
               MoreSamples.confirmed))
     = None
  /\ selectedImage
       (fst (getCroppedImg MoreSamples.unreadable (Some Sample.image1200)
               MoreSamples.confirmed))
     = None.
Proof.
  split; [reflexivity|].
  rewrite (getCroppedImg_crop_unreadable
             MoreSamples.unreadable Sample.image1200 MoreSamples.confirmed
             Sample.crop400 Sample.jpegBytes
             eq_refl eq_refl eq_refl eq_refl eq_refl).
  split; reflexivity.
Defined.

(** X14. Done never touches the conversation: the messages, the input
    text, the loading state, the language and both crops are as they
    were, and no request goes to the AI service. *)
Theorem getCroppedImg_leaves_chat_alone
    (P : Platform) (imgRef : option HTMLImageElement) (s : State) :
  let s' := fst (getCroppedImg P imgRef s) in
  messages s' = messages s /\ inputText s' = inputText s
  /\ loadingState s' = loadingState s /\ language s' = language s
  /\ crop s' = crop s /\ completedCrop s' = completedCrop s
  /\ forall req,
       ~ In (GenerateContent req) (snd (getCroppedImg P imgRef s)).
Proof.
  cbn zeta.
  destruct (AppFacts.getCroppedImg_frame P imgRef s)
    as (H1 & H2 & H3 & H4 & H5 & H6).
  repeat split; auto. intros req.
  apply EffectFacts.getCroppedImg_no_call.
Qed.

(** X15. In every state the application can reach, the payload of the
    selected image is well-formed Base64: it decodes to the bytes of
    the file the crop flow built. *)
Theorem selected_payload_decodes (P : Platform) (s : State) :
  Reachable P s ->
  forall img,
    selectedImage s = Some img ->
    exists payload bytes,
      base64 img = Some payload /\ Base64.decode payload = Some bytes.
Proof.
  intros Hs img Himg.
  destruct (AppFacts.selected_payload P s Hs img Himg) as [bytes Hb].
  exists (Base64.encode bytes), bytes. split; [exact Hb|].
  apply Base64Facts.decode_encode.
Qed.

Lemma selected_payload_decodes_witness :
  Reachable Sample.platform Sample.accepted
  /\ exists img payload bytes,
       selectedImage Sample.accepted = Some img
       /\ base64 img = Some payload
       /\ Base64.decode payload = Some bytes.
Proof.
  assert (H : Reachable Sample.platform Sample.accepted)
    by (unfold Sample.accepted, Sample.picked; repeat constructor).
  split; [exact H|].
  destruct (selected_payload_decodes Sample.platform Sample.accepted H
              _ eq_refl) as (payload & bytes & Hb & Hd).
  eexists _, payload, bytes. repeat split; eassumption.
Defined.

(** ** The chat, send by send *)

(** X16. With nothing but white space typed (or nothing at all) and no
    image selected, [handleSendMessage] is a no-op even when idle: the
    state is the same and no request goes to the AI service. *)
Theorem blank_send_is_noop (P : Platform) (E : SendEnv) (s : State) :
  blankText (inputText s) = true ->
  selectedImage s = None ->
  handleSendMessage E s = (s, [])
  /\ step P s (SendClick (userMessageId E) (userNow E)) = (s, []).
Proof.
  intros Hb Hs. pose proof (AppFacts.sendRejected_blank s Hb Hs) as Hg.
  unfold handleSendMessage. cbn [step].
  now rewrite ChatFacts.handleSendMessage_begin_rejected.
Qed.

Lemma blank_send_is_noop_witness :
  blankText (inputText MoreSamples.blank) = true
  /\ loadingState MoreSamples.blank = idle
  /\ handleSendMessage Sample.failing MoreSamples.blank
     = (MoreSamples.blank, []).
Proof.
  split; [reflexivity|]. split; [reflexivity|].
  exact (proj1 (blank_send_is_noop Sample.platform Sample.failing
                  MoreSamples.blank eq_refl eq_refl)).
Defined.

(** X17. A send that passes the guard (idle, and something other than
    white space typed or an image selected) appends the user message
    with the text as typed and the payload of the image, empties the
    input, drops the selected image, enters [thinking] and hands one
    request to the AI service; the crop state and the language are
    kept. *)
Theorem accepted_send_effect
    (P : Platform) (s : State) (id : MessageId) (now : Z) :
  loadingState s = idle ->
  blankText (inputText s) = false \/ selectedImage s <> None ->
  step P s (SendClick id now)
  = ({| messages :=
          messages s
          ++ [{| msg_id := id; msg_role := USER; msg_text := inputText s;
                 msg_image := currentBase64 (selectedImage s);
                 msg_timestamp := now; msg_isError := None |}];
        inputText := [];
        selectedImage := None;
        loadingState := thinking;
        language := language s;
        isCropping := isCropping s;
        cropImageSrc := cropImageSrc s;
        crop := crop s;
        completedCrop := completedCrop s |},
     [GenerateContent (requestOf s)]).
Proof.
  intros Hi H. cbn [step].
  now rewrite ChatFacts.handleSendMessage_begin_accepted
    by now apply AppFacts.sendRejected_ready.
Qed.

Lemma accepted_send_effect_witness :
  loadingState Sample.typed = idle
  /\ blankText (inputText Sample.typed) = false
  /\ List.map msg_text
       (messages (fst (step Sample.platform Sample.typed
                         (SendClick (lit "u1") 1))))
     = [welcomeText; lit "2+2?"]
  /\ snd (step Sample.platform Sample.typed (SendClick (lit "u1") 1))
     = [GenerateContent (requestOf Sample.typed)].
Proof.
  split; [reflexivity|]. split; [reflexivity|].
  rewrite (accepted_send_effect Sample.platform Sample.typed (lit "u1") 1
             eq_refl (or_introl eq_refl)).
  split; reflexivity.
Defined.

(** X18. [handleSendMessage] reads its guard, text, image and
    language from the render that created it.  The handler of the
    render of the current state is [handleSendMessage_begin].  Once the
    component has rendered again after a send, a second send is a
    no-op.  The handler of the render before the send is not: when the
    first send was accepted, running it again appends a second user
    message with the same text and image behind the first and issues
    the same request again; when the first was rejected, so is the
    second. *)
Theorem second_send_reads_its_render
    (s : State) (id1 id2 : MessageId) (now1 now2 : Z) :
  let sent := fst (handleSendMessage_begin id1 now1 s) in
  handleSendMessage_of_render s id1 now1 s = handleSendMessage_begin id1 now1 s
  /\ handleSendMessage_of_render sent id2 now2 sent = (sent, None)
  /\ (sendRejected s = false ->
      messages (fst (handleSendMessage_of_render s id2 now2 sent))
      = messages s ++ [userMessageOf id1 now1 s; userMessageOf id2 now2 s]
      /\ loadingState (fst (handleSendMessage_of_render s id2 now2 sent))
         = thinking
      /\ snd (handleSendMessage_of_render s id2 now2 sent)
         = Some (requestOf s)
      /\ snd (handleSendMessage_begin id1 now1 s) = Some (requestOf s))
  /\ (sendRejected s = true ->
      handleSendMessage_of_render s id2 now2 sent = (s, None)).
Proof.
  intros sent. split; [reflexivity|]. split.
  - assert (Hsent : sendRejected sent = true).
    { subst sent. destruct (sendRejected s) eqn:Hg.
      - rewrite (ChatFacts.handleSendMessage_begin_rejected id1 now1 s Hg).
        exact Hg.
      - exact (AppFacts.after_send_rejected id1 now1 s Hg). }
    unfold handleSendMessage_of_render. now rewrite Hsent.
  - split; intros Hg.
    + subst sent. unfold handleSendMessage_of_render, handleSendMessage_begin.
      rewrite Hg. cbn. rewrite <- app_assoc. repeat split.
    + subst sent. unfold handleSendMessage_of_render.
      rewrite (ChatFacts.handleSendMessage_begin_rejected id1 now1 s Hg).
      now rewrite Hg.
Qed.

Lemma second_send_reads_its_render_witness :
  sendRejected Sample.typed = false
  /\ List.map msg_text
       (messages
          (fst (handleSendMessage_of_render Sample.typed (lit "u2") 2
                  (fst (handleSendMessage_begin (lit "u1") 1
                          Sample.typed)))))
     = [welcomeText; lit "2+2?"; lit "2+2?"]
  /\ snd (handleSendMessage_of_render Sample.typed (lit "u2") 2
            (fst (handleSendMessage_begin (lit "u1") 1 Sample.typed)))
     = Some (requestOf Sample.typed).
Proof.
  split; [reflexivity|].
  destruct (second_send_reads_its_render Sample.typed (lit "u1") (lit "u2")
              1 2) as (_ & _ & Hsame & _).
  destruct (Hsame eq_refl) as (Hm & _ & Hr & _).
  split; [|exact Hr]. rewrite Hm. reflexivity.
Defined.

(** X19. When the service answers with a text, a run of
    [handleSendMessage] appends the user message and then one model
    message with exactly that text and no error flag, ends idle, and
    has called the service once. *)
Theorem reply_text_is_appended
    (E : SendEnv) (s : State) (text : jsstring) :
  sendRejected s = false ->
  truthy text = true ->
  ai E (requestOf s) = Replies (Some text) ->
  handleSendMessage E s
  = ({| messages :=
          messages s
          ++ [userMessageOf (userMessageId E) (userNow E) s;
              {| msg_id := replyId E; msg_role := MODEL; msg_text := text;
                 msg_image := None; msg_timestamp := replyNow E;
                 msg_isError := None |}];
        inputText := [];
        selectedImage := None;
        loadingState := idle;
        language := language s;
        isCropping := isCropping s;
        cropImageSrc := cropImageSrc s;
        crop := crop s;
        completedCrop := completedCrop s |},
     [GenerateContent (requestOf s)]).
Proof.
  intros Hg Ht Hai. unfold handleSendMessage.
  rewrite ChatFacts.handleSendMessage_begin_accepted by assumption.
  rewrite Hai. cbn. unfold orElse. rewrite Ht.
  unfold handleSendMessage_resume, setLoadingState, setMessages. cbn.
  now rewrite <- app_assoc.
Qed.

Lemma reply_text_is_appended_witness :
  sendRejected Sample.typed = false
  /\ List.map msg_text
       (messages (fst (handleSendMessage MoreSamples.answering Sample.typed)))
     = [welcomeText; lit "2+2?"; lit "**4**"]
  /\ loadingState (fst (handleSendMessage MoreSamples.answering Sample.typed))
     = idle.
Proof.
  split; [reflexivity|].
  rewrite (reply_text_is_appended MoreSamples.answering Sample.typed
             (lit "**4**") eq_refl eq_refl eq_refl).
  split; reflexivity.
Defined.

(** X20. A run of [handleSendMessage] started idle ends idle whatever
    the service does, and a run calls the service at most once: there
    is no retry. *)
Theorem run_ends_idle_after_one_call (E : SendEnv) (s : State) :
  loadingState s = idle ->
  loadingState (fst (handleSendMessage E s)) = idle
  /\ (List.length (filter isServiceCall (snd (handleSendMessage E s)))
      <= 1)%nat.
Proof.
  intros Hi. unfold handleSendMessage.
  destruct (sendRejected s) eqn:Hg.
  - rewrite ChatFacts.handleSendMessage_begin_rejected by assumption.
    cbn. split; [assumption|lia].
  - rewrite ChatFacts.handleSendMessage_begin_accepted by assumption.
    destruct (ai E (requestOf s)) as [text|message]; cbn; split;
      try reflexivity; lia.
Qed.

Lemma run_ends_idle_after_one_call_witness :
  loadingState Sample.typed = idle
  /\ loadingState (fst (handleSendMessage MoreSamples.refusing Sample.typed))
     = idle
  /\ (List.length
        (filter isServiceCall
           (snd (handleSendMessage MoreSamples.refusing Sample.typed)))
      <= 1)%nat.
Proof.
  split; [reflexivity|].
  exact (run_ends_idle_after_one_call MoreSamples.refusing Sample.typed
           eq_refl).
Defined.

(** X21. After an accepted send and the settlement of its call,
    sending again without typing or selecting anything is a no-op: the
    send has emptied the input and dropped the image. *)
Theorem resend_without_input_is_noop
    (P : Platform) (s : State) (id1 id2 id3 : MessageId)
    (now1 now2 now3 : Z) (o : ServiceOutcome) :
  sendRejected s = false ->
  let s1 := fst (step P s (SendClick id1 now1)) in
  let s2 := fst (step P s1 (ServiceSettled id2 now2 o)) in
  loadingState s2 = idle
  /\ step P s2 (SendClick id3 now3) = (s2, []).
Proof.
  intros Hg s1 s2. subst s1 s2. cbn [step].
  rewrite (ChatFacts.handleSendMessage_begin_accepted id1 now1 s Hg).
  cbn [fst].
  destruct o as [text|message]; cbn [solveHomework_settle fst];
    (split; [reflexivity|]);
    now rewrite ChatFacts.handleSendMessage_begin_rejected.
Qed.

Lemma resend_without_input_is_noop_witness :
  sendRejected Sample.typed = false
  /\ step Sample.platform
       (fst (step Sample.platform Sample.awaiting
               (ServiceSettled (lit "m1") 2 (Replies (Some (lit "4"))))))
       (SendClick (lit "u2") 3)
     = (fst (step Sample.platform Sample.awaiting
               (ServiceSettled (lit "m1") 2 (Replies (Some (lit "4"))))),
        []).
Proof.
  split; [reflexivity|].
  exact (proj2 (resend_without_input_is_noop Sample.platform Sample.typed
                  (lit "u1") (lit "m1") (lit "u2") 1 2 3
                  (Replies (Some (lit "4"))) eq_refl)).
Defined.

(** ** What holds in every state *)

(** X22. The loading state of a state the application can reach is
    [idle] or [thinking]: [uploading] and [streaming] are never
    entered. *)
Theorem loading_state_idle_or_thinking (P : Platform) (s : State) :
  Reachable P s ->
  loadingState s = idle \/ loadingState s = thinking.
Proof. apply ChatFacts.loading_idle_or_thinking. Qed.

Lemma loading_state_idle_or_thinking_witness :
  Reachable Sample.platform Sample.awaiting
  /\ (loadingState Sample.awaiting = idle
      \/ loadingState Sample.awaiting = thinking).
Proof.
  assert (H : Reachable Sample.platform Sample.awaiting)
    by (unfold Sample.awaiting, Sample.typed; repeat constructor).
  split; [exact H|].
  exact (loading_state_idle_or_thinking Sample.platform Sample.awaiting H).
Defined.

(** X23. In every state the application can reach, the error flag of
    a message is never false; a message with the flag is an apology of
    the model with the fixed text; messages of the user have no flag
    and messages of the model have no image. *)
Theorem messages_flagged_by_handlers (P : Platform) (s : State) :
  Reachable P s -> Forall flaggedByHandlers (messages s).
Proof. apply AppFacts.flagged_invariant. Qed.

Lemma messages_flagged_by_handlers_witness :
  Reachable Sample.platform Sample.awaiting
  /\ Forall flaggedByHandlers (messages Sample.awaiting).
Proof.
  assert (H : Reachable Sample.platform Sample.awaiting)
    by (unfold Sample.awaiting, Sample.typed; repeat constructor).
  split; [exact H|].
  exact (messages_flagged_by_handlers Sample.platform Sample.awaiting H).
Defined.

(** X24. Clear Chat does not cancel an awaited answer: when the call
    settles after the chat was cleared, the list is the welcome
    message followed by the one model message of the settlement, and
    the loading state is idle. *)
Theorem clear_chat_keeps_awaited_answer
    (P : Platform) (s : State) (id : MessageId) (now : Z)
    (o : ServiceOutcome) :
  Reachable P s ->
  let s' :=
    fst (step P (fst (step P s ClearChatClick)) (ServiceSettled id now o)) in
  exists w m,
    messages s' = [welcome w; m]
    /\ msg_id m = id /\ msg_role m = MODEL /\ msg_timestamp m = now
    /\ loadingState s' = idle.
Proof.
  intros Hs. cbn zeta.
  destruct (ChatFacts.messages_start_with_welcome P s Hs) as (w & rest & E).
  exists w. destruct o as [text|message]; cbn; rewrite E; cbn;
    eexists; repeat split.
Qed.

Lemma clear_chat_keeps_awaited_answer_witness :
  Reachable Sample.platform Sample.awaiting
  /\ exists w m,
       messages
         (fst (step Sample.platform
                 (fst (step Sample.platform Sample.awaiting ClearChatClick))
                 (ServiceSettled (lit "m1") 2 (Replies (Some (lit "4"))))))
       = [welcome w; m]
       /\ msg_id m = lit "m1" /\ msg_role m = MODEL /\ msg_timestamp m = 2%Z
       /\ loadingState
            (fst (step Sample.platform
                    (fst (step Sample.platform Sample.awaiting ClearChatClick))
                    (ServiceSettled (lit "m1") 2 (Replies (Some (lit "4"))))))
          = idle.
Proof.
  assert (H : Reachable Sample.platform Sample.awaiting)
    by (unfold Sample.awaiting, Sample.typed; repeat constructor).
  split; [exact H|].
  exact (clear_chat_keeps_awaited_answer Sample.platform Sample.awaiting
           (lit "m1") 2 (Replies (Some (lit "4"))) H).
Defined.

(** ** The chat bubbles *)

(** X25. The image a bubble shows for a message sent with a selected
    image is the data URL of the selected bytes under the MIME type of
    the selected image: the type the bubble writes into the URL is the
    type the crop flow gave the image, and the payload is the one that
    went to the AI service. *)
Theorem bubble_shows_selected_image
    (P : Platform) (s : State) (img : SelectedImage) (payload : jsstring)
    (id : MessageId) (now : Z) :
  Reachable P s ->
  selectedImage s = Some img ->
  base64 img = Some payload ->
  truthy payload = true ->
  exists bytes,
    bubble_image (ChatBubble (userMessageOf id now s))
    = Some (dataURL (sel_mimeType img) bytes)
    /\ Base64.decode payload = Some bytes
    /\ In (InlineDataPart payload (sel_mimeType img))
         (req_parts (requestOf s)).
Proof.
  intros Hs Himg Hb Ht.
  pose proof (ChatFacts.selected_is_jpeg P s Hs img Himg) as Hj.
  destruct (AppFacts.selected_payload P s Hs img Himg) as [bytes Hbytes].
  assert (Hp : payload = Base64.encode bytes) by congruence.
  exists bytes. repeat split.
  - unfold ChatBubble, userMessageOf. cbn. rewrite Himg. cbn.
    rewrite Hb, Ht, Hj, Hp. reflexivity.
  - rewrite Hp. apply Base64Facts.decode_encode.
  - unfold requestOf. cbn. unfold solveHomework_parts.
    rewrite Himg. cbn. rewrite Hb, Ht, Hj. now left.
Qed.

Lemma bubble_shows_selected_image_witness :
  Reachable Sample.platform Sample.accepted
  /\ exists bytes,
       bubble_image (ChatBubble (userMessageOf (lit "u1") 1 Sample.accepted))
       = Some (dataURL (lit "image/jpeg") bytes)
       /\ Base64.decode (Base64.encode Sample.pngBytes) = Some bytes
       /\ In (InlineDataPart (Base64.encode Sample.pngBytes) (lit "image/jpeg"))
            (req_parts (requestOf Sample.accepted)).
Proof.
  assert (H : Reachable Sample.platform Sample.accepted)
    by (unfold Sample.accepted, Sample.picked; repeat constructor).
  split; [exact H|].
  exact (bubble_shows_selected_image Sample.platform Sample.accepted
           _ (Base64.encode Sample.pngBytes) (lit "u1") 1
           H eq_refl eq_refl eq_refl).
Defined.

(** X26. No bubble of the chat area injects markup of its own: the
    bubble of a user message sets no inner HTML at all (its text is
    shown as text), and every string the bubble of a model message
    sets as inner HTML has angle brackets only in the four fixed
    tags. *)
Theorem bubbles_inject_only_fixed_tags (s : State) (b : Bubble) :
  In b (fst (chatArea s)) ->
  (bubble_isUser b = true -> bubbleHTML b = [])
  /\ forall html, In html (bubbleHTML b) -> Markdown.OnlyFixedTags html.
Proof.
  unfold chatArea. cbn [fst]. intros Hb.
  apply in_map_iff in Hb. destruct Hb as (m & <- & _).
  unfold ChatBubble, bubbleHTML. cbn.
  destruct (Role_eqb (msg_role m) USER); cbn.
  - split; [reflexivity|]. intros html [].
  - split; [discriminate|]. intros html Hin.
    destruct (Markdown.MarkdownText (msg_text m)) as [blocks|] eqn:E;
      [|contradiction].
    apply in_flat_map in Hin. destruct Hin as (blk & Hblk & Hh).
    destruct (Markdown.innerHTML blk) as [h|] eqn:Eh; [|contradiction].
    destruct Hh as [<-|[]].
    unfold Markdown.MarkdownText in E.
    destruct (truthy (msg_text m)); [|discriminate].
    inversion E; subst blocks.
    apply in_map_iff in Hblk. destruct Hblk as (line & <- & _).
    now apply (LineFacts.renderLine_html line).
Qed.

Lemma bubbles_inject_only_fixed_tags_witness :
  In (ChatBubble (welcome 0)) (fst (chatArea (initialState 0)))
  /\ forall html,
       In html (bubbleHTML (ChatBubble (welcome 0))) ->
       Markdown.OnlyFixedTags html.
Proof.
  assert (H : In (ChatBubble (welcome 0)) (fst (chatArea (initialState 0))))
    by now left.
  split; [exact H|].
  exact (proj2 (bubbles_inject_only_fixed_tags (initialState 0) _ H)).
Defined.

(** ** The request *)

(** X27. The parts of a request are the instruction text alone, or one
    image part followed by the instruction text; the image part is
    there exactly when both the payload and the MIME type are given
    and not empty, so an image without a MIME type is left out
    silently. *)
Theorem request_parts_shape
    (prompt : jsstring) (imageBase64 mimeType : option jsstring)
    (language : jsstring) :
  let parts :=
    req_parts (solveHomework_request prompt imageBase64 mimeType language) in
  let text := TextPart (systemInstruction prompt language) in
  (truthy_opt imageBase64 && truthy_opt mimeType = false /\ parts = [text])
  \/ (exists d m,
        imageBase64 = Some d /\ mimeType = Some m
        /\ truthy d = true /\ truthy m = true
        /\ parts = [InlineDataPart d m; text]).
Proof.
  cbn. unfold solveHomework_parts.
  destruct imageBase64 as [d|], mimeType as [m|]; cbn;
    try (left; split; [reflexivity || apply andb_false_r|reflexivity]).
  destruct (truthy d) eqn:Hd, (truthy m) eqn:Hm; cbn;
    try (left; split; reflexivity).
  right. exists d, m. now repeat split.
Qed.

(** X28. Without a source image (none was loaded, the read gave
    nothing, or Cancel or a finished crop has dropped it) Done is a
    no-op, whatever the crop and the image ref are; in particular Done
    after Cancel does nothing. *)
Theorem getCroppedImg_without_source
    (P : Platform) (imgRef : option HTMLImageElement) (s : State) :
  truthy_opt (cropImageSrc s) = false ->
  getCroppedImg P imgRef s = (s, [])
  /\ getCroppedImg P imgRef (cancelCrop s) = (cancelCrop s, []).
Proof.
  intros Ht.
  assert (H : forall s0, truthy_opt (cropImageSrc s0) = false ->
                         getCroppedImg P imgRef s0 = (s0, [])).
  { intros s0 H0. unfold getCroppedImg. rewrite H0.
    destruct imgRef, (completedCrop s0), (cropImageSrc s0) as [src|];
      try reflexivity; cbn in H0; now rewrite H0. }
  split; [now apply H|]. now apply H.
Qed.

Lemma getCroppedImg_without_source_witness :
  truthy_opt (cropImageSrc (cancelCrop MoreSamples.confirmed)) = false
  /\ getCroppedImg Sample.platform (Some Sample.image1200)
       (cancelCrop MoreSamples.confirmed)
     = (cancelCrop MoreSamples.confirmed, []).
Proof.
  split; [reflexivity|].
  exact (proj1 (getCroppedImg_without_source Sample.platform
                  (Some Sample.image1200) (cancelCrop MoreSamples.confirmed)
                  eq_refl)).
Defined.
